(** * ROKU G66/G83 editor: peck-drilling cycle parser, simulator and analysis

    A shallow embedding of [nc_parser.py] (class [RokuNCParser]) and of
    [analysis_engine.py] (class [DrillingAnalysisEngine]).

    Numbers.  Python [float] values are modelled by exact rationals ([Q]):
    every arithmetic operation, comparison, [abs], [min] and [max] is the
    exact one, so binary64 rounding is not part of the model.  The one
    transcendental operation of the engine, [r_ratio ** 1.4], lives on the
    reals ([R]) in module [Dri].

    Dictionaries.  A Python [dict] with string keys is a [gmap string _].
    A parameter dictionary maps a key to [None] (Python [None]) or to a
    number; a stage dictionary maps ["I"], ["J"], ["K"] to numbers.

    Failure.  A Python exception is a [Raise] result. *)

From Stdlib Require Import ZArith QArith Qabs Qround Qreduction DecimalString.
From Stdlib Require Import String Ascii List Bool Lia Reals Lra Lqa.
From stdpp Require Import base option gmap strings.
Import ListNotations.

Local Open Scope Q_scope.

(** ** Numbers *)

Module Num.

(** The zero tolerance [1e-6] of the sources. *)
Definition eps : Q := 0.000001.

(** [x < y] on floats. *)
Definition Qltb (x y : Q) : bool := negb (Qle_bool y x).

(** Python [max(a, b)]: the first argument unless the second is larger. *)
Definition py_max (a b : Q) : Q := if Qltb a b then b else a.

(** Python [min(a, b)]: the first argument unless the second is smaller. *)
Definition py_min (a b : Q) : Q := if Qltb b a then b else a.

End Num.
Import Num.

(** ** Results of fallible code *)

Inductive exn : Type :=
| TypeError
| ZeroDivisionError
| ValueError
| IndexError
| Diverges.

Inductive result (A : Type) : Type :=
| Ok (a : A)
| Raise (e : exn).
Arguments Ok {A} a.
Arguments Raise {A} e.

(** Sequencing: the first exception aborts the rest ([x ← r; k] below). *)
#[global] Instance result_bind : MBind result := fun A B k r =>
  match r with
  | Ok a => k a
  | Raise e => Raise e
  end.

#[global] Instance result_ret : MRet result := fun A a => Ok a.

(** ** Dictionaries *)

(** A parameter dictionary such as [static_params]: a value is [None] or a number. *)
Abbreviation params := (gmap string (option Q)).

(** A stage dictionary such as [{'I': .., 'J': .., 'K': ..}]. *)
Abbreviation ijk := (gmap string Q).

(** [d.get(k, dflt)] on a parameter dictionary. *)
Definition get (d : params) (k : string) (dflt : Q) : option Q :=
  match d !! k with
  | Some v => v
  | None => Some dflt
  end.

(** [d.get(k)] on a parameter dictionary: a missing key reads as [None]. *)
Definition get_none (d : params) (k : string) : option Q :=
  match d !! k with
  | Some v => v
  | None => None
  end.

(** [g.get(k, dflt)] on a stage dictionary. *)
Definition geti (g : ijk) (k : string) (dflt : Q) : Q :=
  match g !! k with
  | Some v => v
  | None => dflt
  end.

(** Arithmetic and comparison raise [TypeError] on [None]. *)
Definition num (v : option Q) : result Q :=
  match v with
  | Some q => Ok q
  | None => Raise TypeError
  end.

(** ** The peck simulator: [RokuNCParser._g83_to_ijk] *)

Module Sim.

(** The stage [{'I': i_vis, 'J': j_vis, 'K': 0.0}] appended by the loop. *)
Definition stage (i_vis j_vis : Q) : ijk :=
  <["K" := 0]> (<["J" := j_vis]> (<["I" := i_vis]> ∅)).

(** One run of the [while True] loop.  [fuel] bounds the number of
    iterations; [None] means the bound was reached before a [break]. *)
Fixpoint g83_loop (r_point z_bottom : Q) (drilling_down use_ijk_mode : bool)
    (peck_reduction min_peck : Q)
    (fuel : nat) (current_z current_peck : Q) (ijk_list : list ijk)
    : option (list ijk) :=
  match fuel with
  | O => None
  | S fuel' =>
    let next_z :=
      if drilling_down then py_max (current_z - current_peck) z_bottom
      else py_min (current_z + current_peck) z_bottom in
    let depth_increment :=
      if drilling_down then current_z - next_z else next_z - current_z in
    if Qltb depth_increment eps then Some ijk_list
    else
      let i_vis := if drilling_down then - depth_increment else depth_increment in
      let j_vis := r_point - next_z in
      let ijk_list := ijk_list ++ [stage i_vis j_vis] in
      let current_z := next_z in
      if drilling_down && Qle_bool current_z z_bottom then Some ijk_list
      else if negb drilling_down && Qle_bool z_bottom current_z then Some ijk_list
      else
        let current_peck :=
          if use_ijk_mode then
            let current_peck := current_peck - peck_reduction in
            if Qltb current_peck min_peck then min_peck else current_peck
          else current_peck in
        g83_loop r_point z_bottom drilling_down use_ijk_mode
                 peck_reduction min_peck fuel' current_z current_peck ijk_list
  end.

(** The function up to the loop, with the loop run on [fuel] iterations. *)
Definition g83_run (fuel : nat) (p : params) (use_ijk_mode : bool)
    : result (option (list ijk)) :=
  r_point ← num (get p "R" 0);
  z_bottom ← num (get p "Z" 0);
  let current_z := r_point in
  let drilling_down := Qltb z_bottom r_point in
  if use_ijk_mode then
    i ← num (get p "I" 0);
    j ← num (get p "J" 0);
    k ← num (get p "K" 0);
    let current_peck := Qabs i in
    let peck_reduction := Qabs j in
    let min_peck := Qabs k in
    if Qle_bool current_peck eps then Ok (Some [])
    else Ok (g83_loop r_point z_bottom drilling_down true
                      peck_reduction min_peck fuel current_z current_peck [])
  else
    q ← num (get p "Q" 0);
    let current_peck := Qabs q in
    if Qle_bool current_peck eps then Ok (Some [])
    else Ok (g83_loop r_point z_bottom drilling_down false
                      0 0 fuel current_z current_peck []).

(** Iterations that always suffice: every iteration that does not leave
    the loop moves [current_z] by at least [eps] towards [z_bottom]. *)
Definition g83_fuel (p : params) : nat :=
  match get p "R" 0, get p "Z" 0 with
  | Some r, Some z => S (Z.to_nat (Qceiling (Qabs (z - r) / eps)))
  | _, _ => 1%nat
  end.

(** [_g83_to_ijk(params, cycle_type, use_ijk_mode)]; the argument
    [cycle_type] is not read by the source.  [Raise Diverges] stands for
    a loop that does not end. *)
Definition _g83_to_ijk (p : params) (use_ijk_mode : bool) : result (list ijk) :=
  o ← g83_run (g83_fuel p) p use_ijk_mode;
  match o with
  | Some l => Ok l
  | None => Raise Diverges
  end.

(** Depth drilled by a stage list: the sum of the stage increments' magnitudes. *)
Definition cum_depth (l : list ijk) : Q :=
  fold_right (fun s acc => Qabs (geti s "I" 0) + acc) 0 l.





End Sim.

(** ** Text: the string operations and regular expressions of the parser *)

Module Text.

Local Open Scope string_scope.

Definition is_digit (c : ascii) : bool :=
  let n := N_of_ascii c in (48 <=? n)%N && (n <=? 57)%N.

(** The whitespace of [\s] and of [str.strip] among the ASCII characters:
    tab, line feed, vertical tab, form feed, carriage return, the four
    separators [0x1c]-[0x1f] and the space. *)
Definition is_space (c : ascii) : bool :=
  let n := N_of_ascii c in
  ((9 <=? n)%N && (n <=? 13)%N) || ((28 <=? n)%N && (n <=? 32)%N).

Definition is_empty (s : string) : bool :=
  match s with EmptyString => true | _ => false end.

(** The longest prefix of [s] made of characters satisfying [f], and the rest. *)
Fixpoint span (f : ascii -> bool) (s : string) : string * string :=
  match s with
  | EmptyString => (EmptyString, EmptyString)
  | String c r =>
    if f c then let '(a, b) := span f r in (String c a, b)
    else (EmptyString, s)
  end.

(** [sub in s]. *)
Fixpoint contains (sub s : string) : bool :=
  String.prefix sub s ||
  match s with
  | EmptyString => false
  | String _ r => contains sub r
  end.

(** [c in cls] for a character class written as a string. *)
Fixpoint in_class (cls : string) (c : ascii) : bool :=
  match cls with
  | EmptyString => false
  | String d r => Ascii.eqb c d || in_class r c
  end.

(** [s.strip()]. *)
Fixpoint rstrip (s : string) : string :=
  match s with
  | EmptyString => EmptyString
  | String c r =>
    let r' := rstrip r in
    if is_space c && is_empty r' then EmptyString else String c r'
  end.

Definition lstrip (s : string) : string := snd (span is_space s).

Definition strip (s : string) : string := rstrip (lstrip s).

(** [sep.join(parts)]. *)
Fixpoint join (sep : string) (parts : list string) : string :=
  match parts with
  | [] => ""
  | [p] => p
  | p :: rest => p ++ sep ++ join sep rest
  end.

(** The number [(?:\d*\.\d+|\d+)] at the start of [s]: its text and what
    follows it.  Both alternatives read the longest run of digits; the
    first one wins when a dot and at least one digit follow that run. *)
Definition match_number (s : string) : option (string * string) :=
  let '(d1, r1) := span is_digit s in
  let plain := if is_empty d1 then None else Some (d1, r1) in
  match r1 with
  | String "." r2 =>
    let '(d2, r3) := span is_digit r2 in
    if is_empty d2 then plain else Some (d1 ++ "." ++ d2, r3)
  | _ => plain
  end.

(** [[-+]?(?:\d*\.\d+|\d+)] at the start of [s]. *)
Definition match_signed (s : string) : option (string * string) :=
  match s with
  | String c r =>
    if in_class "-+" c then
      match match_number r with
      | Some (t, rest) => Some (String c t, rest)
      | None => None
      end
    else match_number s
  | EmptyString => None
  end.

(** [([cls])\s*([-+]?(?:\d*\.\d+|\d+))] at the start of [s]: the two
    groups and what follows the match. *)
Definition match_word (cls : string) (s : string)
    : option ((string * string) * string) :=
  match s with
  | String c r =>
    if in_class cls c then
      match match_signed (snd (span is_space r)) with
      | Some (t, rest) => Some ((String c "", t), rest)
      | None => None
      end
    else None
  | EmptyString => None
  end.

(** [re.findall(r'([cls])\s*([-+]?(?:\d*\.\d+|\d+))', s)]: the matches
    from left to right, each search resuming where the last match ended.
    [skip] counts the characters of [s] still inside the last match. *)
Fixpoint findall_words (cls : string) (skip : nat) (s : string)
    : list (string * string) :=
  match s with
  | EmptyString => []
  | String _ r =>
    match skip with
    | S k => findall_words cls k r
    | O =>
      match match_word cls s with
      | Some (groups, rest) =>
        groups :: findall_words cls (String.length r - String.length rest) r
      | None => findall_words cls 0 r
      end
    end
  end.

(** [D\s*(\d*\.?\d+)] at the start of [s]: the group and what follows. *)
Definition match_diameter (s : string) : option (string * string) :=
  match s with
  | String "D" r => match_number (snd (span is_space r))
  | _ => None
  end.

(** [re.findall(r'D\s*(\d*\.?\d+)', s)]. *)
Fixpoint findall_diameters (skip : nat) (s : string) : list string :=
  match s with
  | EmptyString => []
  | String _ r =>
    match skip with
    | S k => findall_diameters k r
    | O =>
      match match_diameter s with
      | Some (group, rest) =>
        group :: findall_diameters (String.length r - String.length rest) r
      | None => findall_diameters 0 r
      end
    end
  end.

(** [re.search(c + r'(\d+)', s)]: group 1 of the leftmost match. *)
Fixpoint search_digits (c : ascii) (s : string) : option string :=
  match s with
  | EmptyString => None
  | String c' r =>
    let d := fst (span is_digit r) in
    if Ascii.eqb c' c && negb (is_empty d) then Some d
    else search_digits c r
  end.

(** [re.sub(c + r'\d+', repl, s, count=1)] for a replacement text
    without backslashes. *)
Fixpoint sub_digits_once (c : ascii) (repl : string) (s : string) : string :=
  match s with
  | EmptyString => EmptyString
  | String c' r =>
    let '(d, rest) := span is_digit r in
    if Ascii.eqb c' c && negb (is_empty d) then repl ++ rest
    else String c' (sub_digits_once c repl r)
  end.

(** The value of a run of decimal digits. *)
Fixpoint digits_value (acc : N) (s : string) : N :=
  match s with
  | EmptyString => acc
  | String c r => digits_value (10 * acc + (N_of_ascii c - 48)) r
  end.

Fixpoint pow10 (n : nat) : positive :=
  match n with
  | O => 1
  | S k => 10 * pow10 k
  end.

Definition all_digits (s : string) : bool := is_empty (snd (span is_digit s)).

(** [int(s)] for the digit runs the regular expressions capture. *)
Definition int_of_string (s : string) : result Z :=
  if negb (is_empty s) && all_digits s then Ok (Z.of_N (digits_value 0 s))
  else Raise ValueError.

(** [float(s)] for texts of the shape [[-+]?(\d*\.\d+|\d+)]: the exact
    decimal value, the digits over the power of ten of the fraction's
    length. *)
Definition float_unsigned (s : string) : result Q :=
  let '(d1, r1) := span is_digit s in
  match r1 with
  | EmptyString =>
    if is_empty d1 then Raise ValueError
    else Ok (inject_Z (Z.of_N (digits_value 0 d1)))
  | String "." d2 =>
    if all_digits d2 && negb (is_empty d1 && is_empty d2) then
      Ok (Qmake (Z.of_N (digits_value (digits_value 0 d1) d2))
                (pow10 (String.length d2)))
    else Raise ValueError
  | _ => Raise ValueError
  end.

Definition float_of_string (s : string) : result Q :=
  match s with
  | String "-" r => q ← float_unsigned r; Ok (- q)
  | String "+" r => float_unsigned r
  | _ => float_unsigned s
  end.

(** [str(n)] for an integer. *)
Definition string_of_Z (n : Z) : string :=
  NilZero.string_of_int (Z.to_int n).

End Text.

(** ** Number formatting and rounding *)

Module Fmt.
Import Text.

Local Open Scope string_scope.

(** Rounding to the nearest integer, ties to the even one. *)
Definition round_half_even (q : Q) : Z :=
  let f := Qfloor q in
  match Qcompare (2 * (q - inject_Z f)) 1 with
  | Lt => f
  | Gt => (f + 1)%Z
  | Eq => if Z.even f then f else (f + 1)%Z
  end.

(** Python [round(x, 3)]. *)
Definition round3 (x : Q) : Q :=
  inject_Z (round_half_even (x * 1000)) / 1000.

(** Number of decimal digits of a natural number. *)
Definition ndigits (n : N) : Z :=
  Z.of_nat (String.length (NilZero.string_of_uint (N.to_uint n))).

(** The decimal exponent of [a > 0]: the [e] with [10^e <= a < 10^(e+1)]. *)
Definition exponent10 (a : Q) : Z :=
  let e0 := (ndigits (Z.to_N (Qnum a)) - ndigits (Npos (Qden a)))%Z in
  if Qltb a (Qpower 10 e0) then (e0 - 1)%Z else e0.

(** [n] written with at least [width] digits. *)
Fixpoint zeros (k : nat) : string :=
  match k with
  | O => ""
  | S k' => String "0" (zeros k')
  end.

Definition pad (width : nat) (n : Z) : string :=
  let s := string_of_Z n in
  zeros (width - String.length s) ++ s.

(** Removal of the trailing zeros of a fraction. *)
Fixpoint strip_zeros (s : string) : string :=
  match s with
  | EmptyString => EmptyString
  | String c r =>
    let r' := strip_zeros r in
    if Ascii.eqb c "0" && is_empty r' then EmptyString else String c r'
  end.

(** [ip.fp] with [fp] on [width] digits, without trailing zeros and
    without the point when nothing follows it. *)
Definition decimal (ip fp : Z) (width : nat) : string :=
  let frac := strip_zeros (pad width fp) in
  string_of_Z ip ++ (if is_empty frac then "" else "." ++ frac).

(** [f"{val:g}"]: six significant digits; fixed notation when the decimal
    exponent [e] satisfies [-4 <= e < 6], scientific notation otherwise;
    trailing zeros removed. *)
Definition fmt (val : Q) : string :=
  if Qeq_bool val 0 then "0"
  else
    let a := Qabs val in
    let e := exponent10 a in
    let m := round_half_even (a * Qpower 10 (5 - e)) in
    let '(m, e) := if (m =? 1000000)%Z then (100000, e + 1)%Z else (m, e) in
    let sign := if Qltb val 0 then "-" else "" in
    if ((-4 <=? e) && (e <? 6))%Z then
      let scale := (10 ^ (5 - e))%Z in
      sign ++ decimal (m / scale) (m mod scale) (Z.to_nat (5 - e))
    else
      sign ++ decimal (m / 100000) (m mod 100000) 5
           ++ "e" ++ (if (e <? 0)%Z then "-" else "+") ++ pad 2 (Z.abs e).

End Fmt.

(** ** The engine's default peck ratios: [DrillingAnalysisEngine.get_default_ijk] *)

Module Defaults.
Import Fmt.

(** [get_default_ijk(diameter)] with [mode='efficient'] and no
    configuration, as the parser calls it. *)
Definition get_default_ijk (diameter : Q) : Q * Q * Q :=
  if Qle_bool diameter 0.0001 then (0, 0, 0)
  else
    let i_ratio := 1.1 in
    let j_ratio := 0.12 in
    let k_ratio := 0.35 in
    (round3 (diameter * i_ratio),
     round3 (diameter * j_ratio),
     round3 (diameter * k_ratio)).

End Defaults.

(** ** The parser: [RokuNCParser] *)

Module Parser.
Import Text Fmt Sim Defaults.

Local Open Scope string_scope.

(** One entry of [tools_data].  [use_ijk_mode], [initial_use_ijk_mode]
    and [original_xy] are keys of fixed-cycle records only. *)
Record tool_data : Type := {
  tool_id : string;
  line_index : nat;
  original_line : string;
  cycle_type : string;
  use_ijk_mode : option bool;
  initial_use_ijk_mode : option bool;
  static_params : params;
  dynamic_params : list ijk;
  initial_static : params;
  initial_dynamic : list ijk;
  detected_diameter : option Q;
  rpm : Z;
  initial_rpm : Z;
  rpm_line : Z;
  original_xy : option (option Q * option Q)
}.

(** The parser object. *)
Record parser : Type := {
  nc_lines : list string;
  tools_data : list tool_data;
  tool_diameters : gmap string Q
}.

Definition set_nc_lines (self : parser) (l : list string) : parser :=
  {| nc_lines := l; tools_data := tools_data self;
     tool_diameters := tool_diameters self |}.

Definition set_tools_data (self : parser) (l : list tool_data) : parser :=
  {| nc_lines := nc_lines self; tools_data := l;
     tool_diameters := tool_diameters self |}.

Definition set_tool_diameters (self : parser) (m : gmap string Q) : parser :=
  {| nc_lines := nc_lines self; tools_data := tools_data self;
     tool_diameters := m |}.

(** [key in d] and [bool(d)] for a stage dictionary. *)
Definition has_key (d : ijk) (key : string) : bool :=
  match d !! key with Some _ => true | None => false end.

Definition nonempty (d : ijk) : bool := negb (Nat.eqb (size d) 0).

(** [key in [k1, k2, ...]]. *)
Definition key_in (key : string) (l : list string) : bool :=
  existsb (String.eqb key) l.

(** [_is_zero_set]. *)
Definition _is_zero_set (d : ijk) : bool :=
  Qltb (Qabs (geti d "I" 0)) eps
  && Qltb (Qabs (geti d "J" 0)) eps
  && Qltb (Qabs (geti d "K" 0)) eps.

(** [_fill_missing_ijk]. *)
Definition _fill_missing_ijk (ijk_dict : ijk) : ijk :=
  fold_left (fun d k => if has_key d k then d else <[k := 0]> d)
            ["I"; "J"; "K"] ijk_dict.

(** Closing the triple in progress: missing members filled, and the
    triple appended unless it is all zero. *)
Definition close_triple (dynamic_params : list ijk) (temp_ijk : ijk) : list ijk :=
  let temp_ijk := _fill_missing_ijk temp_ijk in
  if negb (_is_zero_set temp_ijk) then (dynamic_params ++ [temp_ijk])%list
  else dynamic_params.

(** The body of the token loop of [_parse_g66_line], on the state
    [(static_params, dynamic_params, temp_ijk)]. *)
Definition g66_token (st : params * list ijk * ijk) (m : string * string)
    : result (params * list ijk * ijk) :=
  let '(static_params, dynamic_params, temp_ijk) := st in
  let '(key, val_str) := m in
  let key := strip key in
  if is_empty key || is_empty val_str then Ok st
  else
    val ← float_of_string val_str;
    if key_in key ["R"; "Z"; "S"; "T"] then
      Ok (<[key := Some val]> static_params, dynamic_params, temp_ijk)
    else if key_in key ["I"; "J"; "K"] then
      let '(dynamic_params, temp_ijk) :=
        if has_key temp_ijk key
        then (close_triple dynamic_params temp_ijk, ∅)
        else (dynamic_params, temp_ijk) in
      Ok (static_params, dynamic_params, <[key := val]> temp_ijk)
    else Ok st.

Fixpoint g66_tokens (st : params * list ijk * ijk) (matches : list (string * string))
    : result (params * list ijk * ijk) :=
  match matches with
  | [] => Ok st
  | m :: rest => st ← g66_token st m; g66_tokens st rest
  end.

Definition g66_static0 : params :=
  {[ "R" := None; "Z" := None; "S" := None; "T" := None;
     "F" := None; "Q" := None ]}.

(** The extraction of [_parse_g66_line] from the matches of its regular
    expression: [(static_params, dynamic_params)]. *)
Definition g66_extract (matches : list (string * string))
    : result (params * list ijk) :=
  '(static_params, dynamic_params, temp_ijk) ←
    g66_tokens (g66_static0, [], ∅) matches;
  let dynamic_params :=
    if nonempty temp_ijk then close_triple dynamic_params temp_ijk
    else dynamic_params in
  Ok (static_params, dynamic_params).

(** [_parse_g66_line]. *)
Definition _parse_g66_line (self : parser) (line_index : nat) (line : string)
    (tool_id : string) (spindle_rpm spindle_line : Z) : result parser :=
  let matches := findall_words "RZSIJKT" 0 line in
  '(static_params, dynamic_params) ← g66_extract matches;
  let detected_dia := tool_diameters self !! tool_id in
  let data := {|
    tool_id := tool_id;
    line_index := line_index;
    original_line := strip line;
    cycle_type := "G66";
    use_ijk_mode := None;
    initial_use_ijk_mode := None;
    static_params := static_params;
    dynamic_params := dynamic_params;
    initial_static := static_params;
    initial_dynamic := dynamic_params;
    detected_diameter := detected_dia;
    rpm := spindle_rpm;
    initial_rpm := spindle_rpm;
    rpm_line := spindle_line;
    original_xy := None |} in
  Ok (set_tools_data self (tools_data self ++ [data])%list).

(** [abs(static_params.get('Z', 0) - static_params.get('R', 0))]. *)
Definition hole_depth (static_params : params) : result Q :=
  z ← num (get static_params "Z" 0);
  r ← num (get static_params "R" 0);
  Ok (Qabs (z - r)).

(** [static_params.get('Q') is None or abs(static_params['Q']) < 1e-6]. *)
Definition q_unset (static_params : params) : bool :=
  match get_none static_params "Q" with
  | None => true
  | Some q => Qltb (Qabs q) eps
  end.

(** The default [Q]: [min(1.0, depth / 3.0) if depth > 0 else 1.0]. *)
Definition default_q (static_params : params) : result params :=
  depth ← hole_depth static_params;
  Ok (<["Q" := Some (if Qltb 0 depth then py_min 1 (depth / 3) else 1)]>
        static_params).

(** [if static_params.get(k) is None: static_params[k] = 0.0]. *)
Definition zero_if_none (k : string) (static_params : params) : params :=
  match get_none static_params k with
  | None => <[k := Some 0]> static_params
  | Some _ => static_params
  end.

Definition fixed_static0 : params :=
  {[ "R" := None; "Z" := None; "Q" := None; "F" := None; "P" := None;
     "I" := None; "J" := None; "K" := None ]}.

(** The token loop of [_parse_fixed_cycle_line]. *)
Fixpoint fixed_tokens (static_params : params) (matches : list (string * string))
    : result params :=
  match matches with
  | [] => Ok static_params
  | (key, val_str) :: rest =>
    val ← float_of_string val_str;
    fixed_tokens (<[key := Some val]> static_params) rest
  end.

(** The resolution of mode and defaults in [_parse_fixed_cycle_line]:
    the final [(static_params, use_ijk_mode)]. *)
Definition fixed_resolve (self : parser) (tool_id : string)
    (static_params : params) : result (params * bool) :=
  let use_ijk_mode :=
    match get_none static_params "I", get_none static_params "K" with
    | None, None => false
    | _, _ => true
    end in
  let static_params := zero_if_none "I" static_params in
  let static_params := zero_if_none "J" static_params in
  let static_params := zero_if_none "K" static_params in
  static_params ←
    (if negb use_ijk_mode && q_unset static_params
     then default_q static_params else Ok static_params);
  i ← num (get_none static_params "I");
  static_params ←
    (if use_ijk_mode && Qltb (Qabs i) eps then
       let detected_dia := default 0 (tool_diameters self !! tool_id) in
       if Qltb eps detected_dia then
         let '(i_val, j_val, k_val) := get_default_ijk detected_dia in
         Ok (<["K" := Some k_val]>
               (<["J" := Some j_val]> (<["I" := Some i_val]> static_params)))
       else
         depth ← hole_depth static_params;
         let i_val := if Qltb 0 depth then py_min 0.5 (depth / 3) else 0.5 in
         Ok (<["K" := Some (i_val * 0.5)]>
               (<["J" := Some (i_val * 0.2)]>
                  (<["I" := Some i_val]> static_params)))
     else Ok static_params);
  i ← num (get_none static_params "I");
  k ← num (get_none static_params "K");
  if use_ijk_mode && Qltb (Qabs i) eps && Qltb (Qabs k) eps then
    static_params ←
      (if q_unset static_params then default_q static_params
       else Ok static_params);
    Ok (static_params, false)
  else Ok (static_params, use_ijk_mode).

(** [_parse_fixed_cycle_line]. *)
Definition _parse_fixed_cycle_line (self : parser) (line_index : nat)
    (line : string) (tool_id : string) (spindle_rpm spindle_line : Z)
    : result parser :=
  let matches := findall_words "RZQFXYIJK" 0 line in
  static_params ← fixed_tokens fixed_static0 matches;
  let detected_dia := default 0 (tool_diameters self !! tool_id) in
  '(static_params, use_ijk_mode) ← fixed_resolve self tool_id static_params;
  dynamic_params ← _g83_to_ijk static_params use_ijk_mode;
  let data := {|
    tool_id := tool_id;
    line_index := line_index;
    original_line := strip line;
    cycle_type := "G83";
    use_ijk_mode := Some use_ijk_mode;
    initial_use_ijk_mode := Some use_ijk_mode;
    static_params := static_params;
    dynamic_params := dynamic_params;
    initial_static := static_params;
    initial_dynamic := dynamic_params;
    detected_diameter := Some detected_dia;
    rpm := spindle_rpm;
    initial_rpm := spindle_rpm;
    rpm_line := spindle_line;
    original_xy :=
      Some (get_none static_params "X", get_none static_params "Y") |} in
  Ok (set_tools_data self (tools_data self ++ [data])%list).

(** The first strictly positive value among the captured diameters. *)
Fixpoint first_positive (d_matches : list string) : option Q :=
  match d_matches with
  | [] => None
  | d_val :: rest =>
    match float_of_string d_val with
    | Ok val => if Qltb 0 val then Some val else first_positive rest
    | Raise _ => first_positive rest
    end
  end.

Fixpoint scan_lines_for_diameter (lines : list string) : option Q :=
  match lines with
  | [] => None
  | line :: rest =>
    match first_positive (findall_diameters 0 line) with
    | Some val => Some val
    | None => scan_lines_for_diameter rest
    end
  end.

(** [_scan_for_diameter]: the lines [start .. end - 1] with
    [start = max(0, idx - 10)] and [end = min(len, idx + 11)]. *)
Definition _scan_for_diameter (self : parser) (current_line_idx : nat) : option Q :=
  let start := (current_line_idx - 10)%nat in
  let end_ := Nat.min (length (nc_lines self)) (current_line_idx + 11) in
  scan_lines_for_diameter (firstn (end_ - start) (skipn start (nc_lines self))).

(** The local state of the loop of [parse_file]. *)
Record scan_state : Type := {
  self : parser;
  current_tool : string;
  current_spindle_rpm : Z;
  current_spindle_line : Z
}.

(** Spindle tracking, the first statement of the loop body. *)
Definition track_spindle (st : scan_state) (idx : nat) (line : string)
    : result scan_state :=
  if negb (contains "G66" line) then
    match search_digits "S" line with
    | Some digits =>
      n ← int_of_string digits;
      Ok {| self := self st; current_tool := current_tool st;
            current_spindle_rpm := n;
            current_spindle_line := Z.of_nat idx |}
    | None => Ok st
    end
  else Ok st.

(** Tool-change detection, the second statement. *)
Definition track_tool (st : scan_state) (idx : nat) (line : string) : scan_state :=
  match search_digits "T" line with
  | Some found_id =>
    let self' :=
      match _scan_for_diameter (self st) idx with
      | Some dia =>
        set_tool_diameters (self st) (<[found_id := dia]> (tool_diameters (self st)))
      | None => self st
      end in
    {| self := self'; current_tool := found_id;
       current_spindle_rpm := current_spindle_rpm st;
       current_spindle_line := current_spindle_line st |}
  | None => st
  end.

(** Cycle detection, the third statement. *)
Definition detect_cycle (st : scan_state) (idx : nat) (line : string)
    : result scan_state :=
  if contains "G66" line && contains "P9131" line then
    self' ← _parse_g66_line (self st) idx line (current_tool st)
              (current_spindle_rpm st) (current_spindle_line st);
    Ok {| self := self'; current_tool := current_tool st;
          current_spindle_rpm := current_spindle_rpm st;
          current_spindle_line := current_spindle_line st |}
  else if contains "G83" line then
    self' ← _parse_fixed_cycle_line (self st) idx line (current_tool st)
              (current_spindle_rpm st) (current_spindle_line st);
    Ok {| self := self'; current_tool := current_tool st;
          current_spindle_rpm := current_spindle_rpm st;
          current_spindle_line := current_spindle_line st |}
  else Ok st.

(** One iteration of the loop of [parse_file]. *)
Definition scan_line (st : scan_state) (idx : nat) (line : string)
    : result scan_state :=
  st ← track_spindle st idx line;
  detect_cycle (track_tool st idx line) idx line.

Fixpoint scan (st : scan_state) (idx : nat) (lines : list string)
    : result scan_state :=
  match lines with
  | [] => Ok st
  | line :: rest => st ← scan_line st idx line; scan st (S idx) rest
  end.

(** [parse_file], from the lines that [readlines] returned. *)
Definition parse_file (lines : list string) : result parser :=
  let st := {|
    self := {| nc_lines := lines; tools_data := []; tool_diameters := ∅ |};
    current_tool := "Unknown";
    current_spindle_rpm := 0;
    current_spindle_line := -1 |} in
  st ← scan st 0 lines;
  Ok (self st).

(** [X<fmt(v)>] when [v] is not [None]. *)
Definition part (letter : string) (v : option Q) : list string :=
  match v with
  | Some x => [letter ++ fmt x]
  | None => []
  end.

(** A part left out when its value is [None] or within the tolerance of zero. *)
Definition part_nonzero (letter : string) (v : option Q) : list string :=
  match v with
  | Some x => if Qltb eps (Qabs x) then [letter ++ fmt x] else []
  | None => []
  end.

(** The three parts of a dynamic group, left out when all are within
    the tolerance of zero. *)
Definition group_parts (group : ijk) : list string :=
  let i_val := geti group "I" 0 in
  let j_val := geti group "J" 0 in
  let k_val := geti group "K" 0 in
  if Qltb eps (Qabs i_val) || Qltb eps (Qabs j_val) || Qltb eps (Qabs k_val)
  then ["I" ++ fmt i_val; "J" ++ fmt j_val; "K" ++ fmt k_val]
  else [].

(** The text that [update_g66_line] writes for a record. *)
Definition rebuild_line (tool_data : tool_data) (new_static : params)
    (new_dynamic_list : list ijk) : string :=
  let parts :=
    if String.eqb (cycle_type tool_data) "G83" then
      let '(x, y) := default (None, None) (original_xy tool_data) in
      (["G83"] ++ part "X" x ++ part "Y" y
       ++ part "Z" (get_none new_static "Z")
       ++ part "R" (get_none new_static "R")
       ++ (if default false (use_ijk_mode tool_data) then
             part "I" (get_none new_static "I")
             ++ part "J" (get_none new_static "J")
             ++ part "K" (get_none new_static "K")
           else part "Q" (get_none new_static "Q"))
       ++ part "F" (get_none new_static "F"))%list
    else
      (["G66 P9131"]
       ++ part "R" (get_none new_static "R")
       ++ part "Z" (get_none new_static "Z")
       ++ part_nonzero "S" (get_none new_static "S")
       ++ part_nonzero "T" (get_none new_static "T")
       ++ flat_map group_parts new_dynamic_list)%list in
  join " " parts ++ String "010" "".

(** [update_g66_line]. *)
Definition update_g66_line (self : parser) (data_index : Z)
    (new_static : params) (new_dynamic_list : list ijk)
    : result (bool * parser) :=
  if (data_index <? 0)%Z || (Z.of_nat (length (tools_data self)) <=? data_index)%Z
  then Ok (false, self)
  else
    match tools_data self !! Z.to_nat data_index with
    | None => Raise IndexError
    | Some tool_data =>
      let line_idx := line_index tool_data in
      let new_line := rebuild_line tool_data new_static new_dynamic_list in
      if (length (nc_lines self) <=? line_idx)%nat then Raise IndexError
      else
        let tool_data' := {|
          tool_id := tool_id tool_data;
          line_index := line_index tool_data;
          original_line := strip new_line;
          cycle_type := cycle_type tool_data;
          use_ijk_mode := use_ijk_mode tool_data;
          initial_use_ijk_mode := initial_use_ijk_mode tool_data;
          static_params := new_static;
          dynamic_params := new_dynamic_list;
          initial_static := initial_static tool_data;
          initial_dynamic := initial_dynamic tool_data;
          detected_diameter := detected_diameter tool_data;
          rpm := rpm tool_data;
          initial_rpm := initial_rpm tool_data;
          rpm_line := rpm_line tool_data;
          original_xy := original_xy tool_data |} in
        Ok (true,
            {| nc_lines := <[line_idx := new_line]> (nc_lines self);
               tools_data := <[Z.to_nat data_index := tool_data']> (tools_data self);
               tool_diameters := tool_diameters self |})
    end.

(** [int(x)]: truncation towards zero. *)
Definition int_of_float (x : Q) : Z := Z.quot (Qnum x) (Zpos (Qden x)).

(** [update_spindle_speed]. *)
Definition update_spindle_speed (self : parser) (data_index : Z) (new_rpm : Q)
    : bool * parser :=
  if (data_index <? 0)%Z || (Z.of_nat (length (tools_data self)) <=? data_index)%Z
  then (false, self)
  else if Qle_bool new_rpm 0 then (false, self)
  else
    match tools_data self !! Z.to_nat data_index with
    | None => (false, self)
    | Some tool_data =>
      let rpm_line := rpm_line tool_data in
      if (rpm_line <? 0)%Z || (Z.of_nat (length (nc_lines self)) <=? rpm_line)%Z
      then (false, self)
      else
        match nc_lines self !! Z.to_nat rpm_line with
        | None => (false, self)
        | Some old_line =>
          let new_line :=
            sub_digits_once "S" ("S" ++ string_of_Z (int_of_float new_rpm)) old_line in
          let tool_data' := {|
            tool_id := tool_id tool_data;
            line_index := line_index tool_data;
            original_line := original_line tool_data;
            cycle_type := cycle_type tool_data;
            use_ijk_mode := use_ijk_mode tool_data;
            initial_use_ijk_mode := initial_use_ijk_mode tool_data;
            static_params := static_params tool_data;
            dynamic_params := dynamic_params tool_data;
            initial_static := initial_static tool_data;
            initial_dynamic := initial_dynamic tool_data;
            detected_diameter := detected_diameter tool_data;
            rpm := int_of_float new_rpm;
            initial_rpm := initial_rpm tool_data;
            rpm_line := rpm_line;
            original_xy := original_xy tool_data |} in
          (true,
           {| nc_lines := <[Z.to_nat rpm_line := new_line]> (nc_lines self);
              tools_data := <[Z.to_nat data_index := tool_data']> (tools_data self);
              tool_diameters := tool_diameters self |})
        end
    end.

(** *** Fixtures and derived operations used by the properties *)

(** The program of the repository's parser test (its lines with their
    line ends). *)
Definition test_program : list string :=
  map (fun s => s ++ String "010" "")
      ["%"; "O1000"; "T10 M06"; "G0 G90 G54 X0 Y0 M03 S8000"; "G43 H10 Z10.";
       "G66 P9131 R-.2 Z-2.9 I-2.9 J.45 K100. I0. J0. K0. I-1.0 J0.2 K50.";
       "X10. Y10."; "G67"; "M30"; "%"].

(** The macro cycle line of [test_program]. *)
Definition test_macro_line : string :=
  "G66 P9131 R-.2 Z-2.9 I-2.9 J.45 K100. I0. J0. K0. I-1.0 J0.2 K50.".

(** The parser after [parse_file], or an empty one had it raised. *)
Definition parsed (lines : list string) : parser :=
  match parse_file lines with
  | Ok p => p
  | Raise _ => {| nc_lines := []; tools_data := []; tool_diameters := ∅ |}
  end.

(** The line of a macro cycle is the one carrying both markers. *)
Definition is_macro_cycle_line (line : string) : bool :=
  contains "G66" line && contains "P9131" line.

(** Parse, rewrite record [data_index] with its own unchanged
    [static_params] and [dynamic_params], and parse the rewritten text
    again: the record before and the record after. *)
Definition roundtrip (lines : list string) (data_index : nat)
    : result (tool_data * tool_data) :=
  p ← parse_file lines;
  match tools_data p !! data_index with
  | None => Raise IndexError
  | Some before =>
    '(_, p') ← update_g66_line p (Z.of_nat data_index)
                 (static_params before) (dynamic_params before);
    p'' ← parse_file (nc_lines p');
    match tools_data p'' !! data_index with
    | None => Raise IndexError
    | Some after => Ok (before, after)
    end
  end.

(** The content of a macro cycle line as its regular expression reads it:
    static words and complete [I/J/K] triples, in source order, each number
    as its text. *)
Inductive item : Type :=
| Static (key val_str : string)
| Triple (i j k : string).

Definition item_matches (it : item) : list (string * string) :=
  match it with
  | Static key val_str => [(key, val_str)]
  | Triple i j k => [("I", i); ("J", j); ("K", k)]
  end.

(** The matches of a line made of these items. *)
Definition matches_of (items : list item) : list (string * string) :=
  flat_map item_matches items.

Definition is_number (s : string) : Prop :=
  exists q, float_of_string s = Ok q.

Definition number (s : string) : Q :=
  match float_of_string s with
  | Ok q => q
  | Raise _ => 0
  end.





(** A run of digits. *)
Definition digits (d : string) : Prop :=
  is_empty d = false /\ all_digits d = true.

(** The texts that [[-+]?(?:\d*\.\d+|\d+)] matches entirely: an optional
    sign, then digits, or optional digits, a point and digits. *)
Inductive numeral : string -> Prop :=
| numeral_int (sign d : string) :
    In sign [""; "-"; "+"] -> digits d -> numeral (sign ++ d)
| numeral_frac (sign d1 d2 : string) :
    In sign [""; "-"; "+"] -> all_digits d1 = true -> digits d2 ->
    numeral (sign ++ d1 ++ "." ++ d2).






(** The items of [test_macro_line]. *)
Definition test_items : list item :=
  [Static "R" "-.2"; Static "Z" "-2.9";
   Triple "-2.9" ".45" "100"; Triple "0" "0" "0"; Triple "-1.0" "0.2" "50"].

(** A macro cycle line whose depth has seven significant digits, and one
    whose retract height is below [1e-4]. *)
Definition precise_program : list string :=
  ["G66 P9131 R2. Z-123.4567 I-1. J0.2 K50." ++ String "010" ""].

Definition small_program : list string :=
  ["G66 P9131 R0.00001 Z-5. I-1. J0.2 K50." ++ String "010" ""].

(** The three values of a dynamic group. *)
Definition triple_of (g : ijk) : Q * Q * Q :=
  (geti g "I" 0, geti g "J" 0, geti g "K" 0).

(** Numeric equality of two triples. *)
Definition triple_eq (a b : Q * Q * Q) : Prop :=
  fst (fst a) == fst (fst b) /\ snd (fst a) == snd (fst b) /\ snd a == snd b.

Definition scan_start : scan_state :=
  {| self := {| nc_lines := []; tools_data := []; tool_diameters := ∅ |};
     current_tool := "Unknown";
     current_spindle_rpm := 0;
     current_spindle_line := -1 |}.

(** The claim as the specification words it: on every line other than
    the macro cycle line an [S<digits>] token sets the current RPM and its
    line index. *)
Definition rpm_tracked_off_macro_line : Prop :=
  forall (st : scan_state) (idx : nat) (line digits : string),
    is_macro_cycle_line line = false ->
    search_digits "S" line = Some digits ->
    exists st',
      track_spindle st idx line = Ok st'
      /\ Ok (current_spindle_rpm st') = int_of_string digits
      /\ current_spindle_line st' = Z.of_nat idx.





(** The scenario as the specification words it: three dynamic groups, the
    second one all zero. *)
Definition three_groups_extracted : Prop :=
  exists static dyn g1 g2 g3,
    g66_extract (findall_words "RZSIJKT" 0 test_macro_line) = Ok (static, dyn)
    /\ dyn = [g1; g2; g3]
    /\ triple_eq (triple_of g2) (0, 0, 0).

(** What a parse returns, seen through its numbers: for each record its
    line index, R and Z, and the triples of its dynamic groups. *)
Definition parse_view (lines : list string)
    : result (list (nat * option Q * option Q * list (Q * Q * Q))) :=
  p ← parse_file lines;
  Ok (map (fun td => (line_index td,
                      get_none (static_params td) "R",
                      get_none (static_params td) "Z",
                      map triple_of (dynamic_params td)))
          (tools_data p)).

(** A round trip seen through its numbers: R and Z before, the rewritten
    line, and R and Z after. *)
Definition roundtrip_view (lines : list string) (data_index : nat)
    : result (option Q * option Q * string * option Q * option Q) :=
  '(before, after) ← roundtrip lines data_index;
  Ok (get_none (static_params before) "R",
      get_none (static_params before) "Z",
      original_line after,
      get_none (static_params after) "R",
      get_none (static_params after) "Z").

(** A text a run of digits does not continue into. *)
Definition no_digit_ahead (rest : string) : Prop :=
  match rest with
  | EmptyString => True
  | String c _ => is_digit c = false
  end.



End Parser.


(** ** The time estimator: [DrillingAnalysisEngine.calc_drilling_time] *)

Module Engine.

(** A time in minutes, or [float('inf')]. *)
Inductive time : Type :=
| Minutes (t : Q)
| Infinite.

(** Float division: [ZeroDivisionError] on a zero divisor. *)
Definition div (a b : Q) : result Q :=
  if Qeq_bool b 0 then Raise ZeroDivisionError else Ok (a / b).

(** The [for idx, peck in enumerate(ijk_list)] loop, on the state
    [(total_t, current_z)]. *)
Fixpoint drilling_loop (feedrate r_point g0_speed : Q) (is_ijk_mode : bool)
    (clearance : Q) (idx : nat) (ijk_list : list ijk) (total_t current_z : Q)
    : result Q :=
  match ijk_list with
  | [] => Ok total_t
  | peck :: rest =>
    let increment := geti peck "I" 0 in
    let prev_z := current_z in
    let target_z := prev_z + increment in
    total_t ←
      (if is_ijk_mode then
         if Nat.eqb idx 0 then
           let feed_dist := Qabs (target_z - r_point) in
           t ← div feed_dist feedrate; Ok (total_t + t)
         else
           let dist_g0_down := Qabs (r_point - (prev_z + clearance)) in
           t ← div dist_g0_down g0_speed;
           let total_t := total_t + t in
           let feed_dist := Qabs (target_z - (prev_z + clearance)) in
           t ← div feed_dist feedrate; Ok (total_t + t)
       else
         if Nat.eqb idx 0 then
           let feed_dist := Qabs (target_z - r_point) in
           t ← div feed_dist feedrate; Ok (total_t + t)
         else
           let dist_g0_down := Qabs (r_point - (prev_z + clearance)) in
           t ← div dist_g0_down g0_speed;
           let total_t := total_t + t in
           let feed_dist := Qabs (target_z - (prev_z + clearance)) in
           t ← div feed_dist feedrate; Ok (total_t + t));
    let dist_g0_up := Qabs (target_z - r_point) in
    t ← div dist_g0_up g0_speed;
    let total_t := total_t + t in
    let current_z := target_z in
    drilling_loop feedrate r_point g0_speed is_ijk_mode clearance
                  (S idx) rest total_t current_z
  end.

(** [calc_drilling_time(ijk_list, feedrate, r_point, g0_speed, is_ijk_mode,
    clearance)]; callers that omit [clearance] pass [0.1]. *)
Definition calc_drilling_time (ijk_list : list ijk) (feedrate r_point g0_speed : Q)
    (is_ijk_mode : bool) (clearance : Q) : result time :=
  if Qle_bool feedrate 0 then Ok Infinite
  else
    total_t ← drilling_loop feedrate r_point g0_speed is_ijk_mode clearance
                            0 ijk_list 0 r_point;
    Ok (Minutes total_t).

(** *** The estimate as the specification words it *)

(** Depth reached after the first [n] stages, starting from [R]. *)
Definition depth_after (r_point : Q) (ijk_list : list ijk) (n : nat) : Q :=
  fold_left (fun z peck => z + geti peck "I" 0) (firstn n ijk_list) r_point.

(** Minutes spent by stage [n] (from 0): the first stage feeds its whole
    increment from [R]; a later stage rapid-traverses from [R] to the
    previous depth plus the clearance and feeds the rest; every stage then
    retracts at rapid speed from its target depth to [R]. *)
Definition stage_minutes (feedrate r_point g0_speed clearance : Q)
    (ijk_list : list ijk) (n : nat) : Q :=
  let prev := depth_after r_point ijk_list n in
  let target := depth_after r_point ijk_list (S n) in
  let approach :=
    match n with
    | O => Qabs (geti (nth 0 ijk_list ∅) "I" 0) / feedrate
    | S _ => Qabs (r_point - (prev + clearance)) / g0_speed
             + Qabs (target - (prev + clearance)) / feedrate
    end in
  approach + Qabs (target - r_point) / g0_speed.

(** The sum of [stage_minutes] over the stages [0 .. n - 1]. *)
Fixpoint sum_minutes (feedrate r_point g0_speed clearance : Q)
    (ijk_list : list ijk) (n : nat) : Q :=
  match n with
  | O => 0
  | S k => sum_minutes feedrate r_point g0_speed clearance ijk_list k
           + stage_minutes feedrate r_point g0_speed clearance ijk_list k
  end.

Definition spec_minutes (ijk_list : list ijk) (feedrate r_point g0_speed clearance : Q)
    : Q :=
  sum_minutes feedrate r_point g0_speed clearance ijk_list (length ijk_list).

End Engine.

(** ** The drilling risk index: [calculate_dri] and [select_strategy] *)

Module Dri.

Local Open Scope R_scope.

(** The tables of [config.data['dri_factors']]; a missing table is empty. *)
Record config : Type := {
  material : gmap string R;
  coolant : gmap string R;
  tool : gmap string R
}.

(** [x ** 1.4] on floats: [0] at [0], [exp (1.4 * ln x)] for [x > 0], and
    a complex number, which is no float, for [x < 0]. *)
Definition pow14 (x : R) : option R :=
  if Rlt_dec x 0 then None
  else if Req_dec_T x 0 then Some 0
  else Some (Rpower x 1.4).

(** [table.get(key, 1.0)]. *)
Definition factor (table : gmap string R) (key : string) : R :=
  default 1 (table !! key).

(** The three risk factors [(r_material, r_coolant, r_tool)]: [1.0] each
    without a configuration. *)
Definition risk_factors (material_key coolant_mode tool_mat_key : string)
    (cfg : option config) : R * R * R :=
  match cfg with
  | Some c => (factor (material c) material_key,
               factor (coolant c) coolant_mode,
               factor (tool c) tool_mat_key)
  | None => (1, 1, 1)
  end.

(** [calculate_dri]; [None] when the result is not a float. *)
Definition calculate_dri (diameter depth : R)
    (material_key coolant_mode tool_mat_key : string) (cfg : option config)
    : option R :=
  if Rle_dec diameter 0 then Some 999
  else
    let r_ratio := depth / diameter in
    p ← pow14 r_ratio;
    let r_depth := 1.2 + p in
    let '(r_material, r_coolant, r_tool) :=
      risk_factors material_key coolant_mode tool_mat_key cfg in
    Some (r_depth * r_material * r_coolant * r_tool).

(** [select_strategy]. *)
Definition select_strategy (dri : R) : string :=
  if Rlt_dec dri 6 then "DIRECT"
  else if Rlt_dec dri 18 then "Q_MODE"
  else if Rlt_dec dri 40 then "IJK_DYNAMIC"
  else "DEEP_PROTECT".

End Dri.


(** ** What a scan establishes about its records *)

Module Located.
Import Text Parser.

Local Open Scope string_scope.

(** Line indexes in strictly increasing order. *)
Fixpoint increasing (l : list nat) : Prop :=
  match l with
  | [] => True
  | x :: rest => Forall (fun y => (x < y)%nat) rest /\ increasing rest
  end.

(** The record stands on a line of the program that carries its cycle:
    both macro markers for a G66 record, the G83 marker (and not both
    macro markers) for a G83 record. *)
Definition on_cycle_line (lines : list string) (td : tool_data) : Prop :=
  exists line,
    lines !! line_index td = Some line
    /\ ((cycle_type td = "G66" /\ is_macro_cycle_line line = true)
        \/ (cycle_type td = "G83" /\ is_macro_cycle_line line = false
            /\ contains "G83" line = true)).

(** A line that changes the tracked spindle state: it has no G66 and
    carries an S followed by a digit. *)
Definition sets_spindle (line : string) : bool :=
  negb (contains "G66" line)
  && match search_digits "S" line with Some _ => true | None => false end.

(** No line with an index from [from] up to [bound], [bound] excluded,
    changes the spindle state. *)
Definition spindle_kept (lines : list string) (from bound : nat) : Prop :=
  forall (i : nat) (line : string),
    (from <= i < bound)%nat -> lines !! i = Some line -> sets_spindle line = false.

(** The spindle state [(rpm, rpm_line)] in force after the lines before
    [bound]: either none of them changes it, and it is [(0, -1)]; or
    [rpm_line] is the last of them that does, and [rpm] is the integer
    after the leftmost [S] of that line that a digit follows. *)
Definition spindle_source (lines : list string) (bound : nat) (rpm rpm_line : Z)
    : Prop :=
  (rpm_line = (-1)%Z /\ rpm = 0%Z /\ spindle_kept lines 0 bound)
  \/ exists line digits,
       (0 <= rpm_line < Z.of_nat bound)%Z
       /\ lines !! Z.to_nat rpm_line = Some line
       /\ contains "G66" line = false
       /\ search_digits "S" line = Some digits
       /\ int_of_string digits = Ok rpm
       /\ spindle_kept lines (S (Z.to_nat rpm_line)) bound.

(** No line with an index from [from] up to [bound], [bound] excluded,
    carries a T followed by a digit. *)
Definition tool_kept (lines : list string) (from bound : nat) : Prop :=
  forall (i : nat) (line : string),
    (from <= i < bound)%nat -> lines !! i = Some line ->
    search_digits "T" line = None.

(** The tool in force after the lines before [bound]: ["Unknown"] when
    none of them carries a T followed by a digit; otherwise the digits
    after the leftmost such T of the last line that carries one. *)
Definition tool_source (lines : list string) (bound : nat) (tool : string) : Prop :=
  (tool = "Unknown" /\ tool_kept lines 0 bound)
  \/ exists i line,
       (i < bound)%nat
       /\ lines !! i = Some line
       /\ search_digits "T" line = Some tool
       /\ tool_kept lines (S i) bound.

(** The snapshots taken at parse time equal the current values. *)
Definition fresh (td : tool_data) : Prop :=
  initial_static td = static_params td
  /\ initial_dynamic td = dynamic_params td
  /\ initial_rpm td = rpm td
  /\ initial_use_ijk_mode td = use_ijk_mode td.

(** The lines the loop of [parse_file] hands to one of the two line
    parsers, and their indexes from [idx] on. *)
Definition is_cycle_line (line : string) : bool :=
  is_macro_cycle_line line || contains "G83" line.

Fixpoint cycle_lines (idx : nat) (lines : list string) : list nat :=
  match lines with
  | [] => []
  | line :: rest =>
    if is_cycle_line line then idx :: cycle_lines (S idx) rest
    else cycle_lines (S idx) rest
  end.

(** What holds of a record of a scan of [lines]. *)
Definition located (lines : list string) (td : tool_data) : Prop :=
  on_cycle_line lines td
  /\ spindle_source lines (S (line_index td)) (rpm td) (rpm_line td)
  /\ tool_source lines (S (line_index td)) (tool_id td)
  /\ fresh td.

(** The invariant of the loop of [parse_file] before line [n]. *)
Definition scan_inv (lines : list string) (n : nat) (st : scan_state) : Prop :=
  nc_lines (self st) = lines
  /\ Forall (fun td => (line_index td < n)%nat /\ located lines td)
            (tools_data (self st))
  /\ increasing (map line_index (tools_data (self st)))
  /\ spindle_source lines n (current_spindle_rpm st) (current_spindle_line st)
  /\ tool_source lines n (current_tool st).

(** [parse_file] returned. *)
Definition returns (lines : list string) : bool :=
  match parse_file lines with Ok _ => true | Raise _ => false end.

(** A program with a tool change, a spindle speed, a fixed cycle and a
    macro cycle whose line carries a T word. *)
Definition mixed_program : list string :=
  map (fun s => s ++ String "010" "")
      ["T3 M06"; "G0 G90 G54 X0 Y0 S1200 M03"; "G43 H3 Z10.";
       "G83 X1. Y1. Z-6. R2. Q2. F100"; "G80";
       "G66 P9131 R1. Z-5. T2. I-1. J0.2 K50."; "X10. Y10."; "G67"; "M30"].

(** Parse, rewrite record [i] with its own parameters, parse the
    rewritten text: the three parsers, when every step succeeds. *)
Definition rewritten (lines : list string) (i : nat)
    : option (parser * parser * parser) :=
  match parse_file lines with
  | Ok p =>
    match tools_data p !! i with
    | Some td =>
      match update_g66_line p (Z.of_nat i) (static_params td) (dynamic_params td) with
      | Ok (true, p') =>
        match parse_file (nc_lines p') with
        | Ok p'' => Some (p, p', p'')
        | Raise _ => None
        end
      | _ => None
      end
    | None => None
    end
  | Raise _ => None
  end.

(** A fixed cycle whose line carries the spindle word, and the parser
    after the rewriting of that line by [update_g66_line]. *)
Definition speed_on_cycle_line : list string :=
  ["G83 Z-5. R2. Q1. F100 S1200" ++ String "010" ""].

Definition edited : parser :=
  match rewritten speed_on_cycle_line 0 with
  | Some (_, p', _) => p'
  | None => {| nc_lines := []; tools_data := []; tool_diameters := ∅ |}
  end.

End Located.

(** ** What the line parsers read and keep *)

Module Shape.
Import Text Parser.

Local Open Scope string_scope.

(** A match of a word regular expression over the class [cls]: one
    letter of the class and a text that [float] accepts. *)
Definition word_of (cls : string) (m : string * string) : Prop :=
  (exists k, fst m = String k "" /\ in_class cls k = true) /\ is_number (snd m).

(** A stage dictionary with the three keys. *)
Definition complete (g : ijk) : bool :=
  has_key g "I" && has_key g "J" && has_key g "K".

(** What the token loop of [_parse_g66_line] keeps: [F] and [Q] stay
    [None], and every closed group has its three keys. *)
Definition g66_inv (st : params * list ijk * ijk) : Prop :=
  let '(static_params, dynamic_params, _) := st in
  static_params !! "F" = Some None /\ static_params !! "Q" = Some None
  /\ Forall (fun g => complete g = true) dynamic_params.

(** The text of the last word with letter [key] among the matches. *)
Fixpoint last_word (key : string) (matches : list (string * string))
    : option string :=
  match matches with
  | [] => None
  | (k, v) :: rest =>
    match last_word key rest with
    | Some v' => Some v'
    | None => if String.eqb k key then Some v else None
    end
  end.





End Shape.

(** ** The geometry of a stage list *)

Module Stages.
Import Num Sim.




End Stages.

(** ** The engine: [compare_efficiency] and [get_ld_sens_ijk] *)

Module Efficiency.
Import Num Fmt Engine.

(** One of the two parameter dictionaries of [compare_efficiency]. *)
Record drill_params : Type := {
  ijk_list : list ijk;
  feedrate : Q;
  r_point : Q;
  is_ijk_mode : bool
}.

(** The dictionary that [compare_efficiency] returns. *)
Record efficiency : Type := {
  save_pct : Q;
  init_pecks : nat;
  curr_pecks : nat;
  init_time : time;
  curr_time : time
}.

(** [compare_efficiency]; both estimates use the default clearance. *)
Definition compare_efficiency (current_params initial_params : drill_params)
    (g0_speed : Q) : result efficiency :=
  curr_t ← calc_drilling_time (ijk_list current_params) (feedrate current_params)
              (r_point current_params) g0_speed (is_ijk_mode current_params) 0.1;
  init_t ← calc_drilling_time (ijk_list initial_params) (feedrate initial_params)
              (r_point initial_params) g0_speed (is_ijk_mode initial_params) 0.1;
  let curr_pecks := length (ijk_list current_params) in
  let init_pecks := length (ijk_list initial_params) in
  let save_pct :=
    match init_t, curr_t with
    | Minutes init_t, Minutes curr_t =>
      if Qltb 0 init_t then (init_t - curr_t) / init_t * 100 else 0
    | _, _ => 0
    end in
  Ok {| save_pct := save_pct; init_pecks := init_pecks; curr_pecks := curr_pecks;
        init_time := init_t; curr_time := curr_t |}.

(** [get_ld_sens_ijk]. *)
Definition get_ld_sens_ijk (diameter ld_ratio : Q) : Q * Q * Q :=
  let r_eff := py_min ld_ratio 10 in
  let r := r_eff in
  let i_factor := py_max 0.4 (py_min 1.2 (1.2 - 0.08 * r)) in
  let j_factor := py_max 0.04 (py_min 0.18 (0.18 - 0.01 * r)) in
  let k_factor := py_max 0.08 (py_min 0.25 (0.25 - 0.01 * r)) in
  (round3 (diameter * i_factor),
   round3 (diameter * j_factor),
   round3 (diameter * k_factor)).

(** Parameter sets: three pecks of one millimetre, one peck of three,
    and a set without feed. *)
Definition slow_params : drill_params :=
  {| ijk_list := [Sim.stage (-1) 1; Sim.stage (-1) 2; Sim.stage (-1) 3];
     feedrate := 100; r_point := 0; is_ijk_mode := false |}.


Definition idle_params : drill_params :=
  {| ijk_list := [Sim.stage (-3) 3];
     feedrate := 0; r_point := 0; is_ijk_mode := false |}.

End Efficiency.

(** ** Tool diameters *)

Module Diameters.
Import Num Text Parser.

Local Open Scope string_scope.

(** The diameter of a line: its first positive D number. *)
Definition line_diameter (line : string) : option Q :=
  first_positive (findall_diameters 0 line).

(** How a record tells its tool diameter: a positive number when one was
    found; otherwise [None] in a G66 record and [0] in a G83 record. *)
Definition diameter_known (td : tool_data) : Prop :=
  match detected_diameter td with
  | Some d => 0 < d \/ (cycle_type td = "G83" /\ d = 0)
  | None => cycle_type td = "G66"
  end.

Definition diameters_inv (self : parser) : Prop :=
  map_Forall (fun _ d => 0 < d) (tool_diameters self)
  /\ Forall diameter_known (tools_data self).

(** A text in which the D number of the first tool stands within ten
    lines before the change to the second. *)
Definition two_tools : parser :=
  {| nc_lines := ["T1 M06 (D5.0)"; "G0 X0 Y0"; "T2 M06"; "(D8.0)"];
     tools_data := [];
     tool_diameters := ∅ |}.




End Diameters.

(** ** The strategies in order *)

Module Tier.

Local Open Scope string_scope.

(** The strategies of [select_strategy], from the lightest to the most
    protective. *)
Definition strategy_rank (strategy : string) : nat :=
  if String.eqb strategy "DIRECT" then 0
  else if String.eqb strategy "Q_MODE" then 1
  else if String.eqb strategy "IJK_DYNAMIC" then 2
  else 3.

End Tier.

(** * Properties *)

(** ** Facts about the numeric helpers *)

Module NumFacts.

Lemma Qltb_lt (x y : Q) : Qltb x y = true <-> x < y.
Proof.
  unfold Qltb. rewrite negb_true_iff. split; intros H.
  - apply Qnot_le_lt. intros Hle. apply Qle_bool_iff in Hle. congruence.
  - destruct (Qle_bool y x) eqn:E; [|reflexivity].
    apply Qle_bool_iff in E. exfalso. exact (Qlt_not_le _ _ H E).
Qed.

Lemma Qltb_ge (x y : Q) : Qltb x y = false <-> y <= x.
Proof.
  unfold Qltb. rewrite negb_false_iff. apply Qle_bool_iff.
Qed.

Lemma Qleb_le (x y : Q) : Qle_bool x y = true <-> x <= y.
Proof. apply Qle_bool_iff. Qed.

Lemma Qleb_gt (x y : Q) : Qle_bool x y = false <-> y < x.
Proof.
  rewrite <- Qltb_lt. unfold Qltb. rewrite negb_true_iff. reflexivity.
Qed.

Lemma py_max_cases (a b : Q) :
  (a < b /\ py_max a b = b) \/ (b <= a /\ py_max a b = a).
Proof.
  unfold py_max. destruct (Qltb a b) eqn:E.
  - left. split; [now apply Qltb_lt | reflexivity].
  - right. split; [now apply Qltb_ge | reflexivity].
Qed.

Lemma py_min_cases (a b : Q) :
  (b < a /\ py_min a b = b) \/ (a <= b /\ py_min a b = a).
Proof.
  unfold py_min. destruct (Qltb b a) eqn:E.
  - left. split; [now apply Qltb_lt | reflexivity].
  - right. split; [now apply Qltb_ge | reflexivity].
Qed.

Lemma Qabs_cases (x : Q) :
  (0 <= x /\ Qabs x == x) \/ (x < 0 /\ Qabs x == - x).
Proof.
  destruct (Qlt_le_dec x 0) as [H|H].
  - right. split; [exact H|]. apply Qabs_neg. lra.
  - left. split; [exact H|]. now apply Qabs_pos.
Qed.


End NumFacts.
Import NumFacts.

(** ** The peck simulator *)

Module SimFacts.
Import Sim.



Lemma cum_depth_app (l1 l2 : list ijk) :
  cum_depth (l1 ++ l2) == cum_depth l1 + cum_depth l2.
Proof.
  induction l1 as [|s l1 IH]; simpl.
  - lra.
  - fold (cum_depth (l1 ++ l2)). fold (cum_depth l1). rewrite IH. lra.
Qed.


Section Loop.
Variables r_point z_bottom : Q.
Variables drilling_down use_ijk_mode : bool.
Variables peck_reduction min_peck : Q.







End Loop.


Lemma ceiling_antitone (d q1 q2 : Q) :
  0 <= d -> 0 < q1 -> q1 <= q2 ->
  (Z.to_nat (Qceiling (d / q2)) <= Z.to_nat (Qceiling (d / q1)))%nat.
Proof.
  intros Hd H1 H2. apply Z2Nat.inj_le.
  - change 0%Z with (Qceiling 0). apply Qceiling_resp_le.
    apply Qle_shift_div_l; lra.
  - change 0%Z with (Qceiling 0). apply Qceiling_resp_le.
    apply Qle_shift_div_l; lra.
  - apply Qceiling_resp_le. apply Qle_shift_div_r; [lra|].
    assert (Hy : 0 <= d / q1) by (apply Qle_shift_div_l; lra).
    assert (Hd' : d == d / q1 * q1) by (field; lra).
    pose proof (Qle_ceiling (d / q1)) as Hc.
    apply Qle_trans with (d / q1 * q1); [lra|].
    apply Qmult_le_compat_nonneg; split; lra.
Qed.













End SimFacts.


(** ** The time estimator *)

Module EngineFacts.
Import Engine.

Lemma div_nonzero (a b : Q) : ~ b == 0 -> div a b = Ok (a / b).
Proof.
  intros Hb. unfold div. destruct (Qeq_bool b 0) eqn:E; [|reflexivity].
  apply Qeq_bool_iff in E. contradiction.
Qed.

Lemma div_zero (a b : Q) : b == 0 -> div a b = Raise ZeroDivisionError.
Proof.
  intros Hb. unfold div. apply Qeq_bool_iff in Hb. now rewrite Hb.
Qed.

Lemma depth_after_prefix (r_point : Q) (pre rest : list ijk) :
  depth_after r_point (pre ++ rest) (length pre)
  = fold_left (fun z peck => z + geti peck "I" 0) pre r_point.
Proof.
  unfold depth_after. now rewrite firstn_app, Nat.sub_diag, firstn_all, app_nil_r.
Qed.

Lemma depth_after_next (r_point : Q) (pre rest : list ijk) (peck : ijk) :
  depth_after r_point (pre ++ peck :: rest) (S (length pre))
  = depth_after r_point (pre ++ peck :: rest) (length pre) + geti peck "I" 0.
Proof.
  rewrite depth_after_prefix.
  replace (pre ++ peck :: rest)%list with ((pre ++ [peck]) ++ rest)%list
    by (now rewrite <- app_assoc).
  replace (S (length pre)) with (length (pre ++ [peck]))
    by (rewrite length_app; simpl; lia).
  rewrite depth_after_prefix, fold_left_app. reflexivity.
Qed.

(** The two kinematic branches of the loop body are the same computation. *)
Lemma drilling_loop_mode (feedrate r_point g0_speed clearance : Q)
    (ijk_list : list ijk) :
  forall (idx : nat) (total_t current_z : Q),
    drilling_loop feedrate r_point g0_speed true clearance idx ijk_list
                  total_t current_z
    = drilling_loop feedrate r_point g0_speed false clearance idx ijk_list
                    total_t current_z.
Proof.
  induction ijk_list as [|peck rest IH]; intros idx total_t current_z.
  - reflexivity.
  - cbn [drilling_loop].
    match goal with |- mbind _ ?a = _ => destruct a as [t|e] end;
      [|reflexivity].
    cbn [mbind result_bind].
    destruct (div _ g0_speed) as [t'|e]; [|reflexivity].
    cbn [mbind result_bind]. apply IH.
Qed.

(** The minutes of stage [length pre], as the loop body computes them. *)
Lemma stage_minutes_step (feedrate r_point g0_speed clearance : Q)
    (pre rest : list ijk) (peck : ijk) :
  let l := (pre ++ peck :: rest)%list in
  let prev_z := depth_after r_point l (length pre) in
  let target_z := prev_z + geti peck "I" 0 in
  stage_minutes feedrate r_point g0_speed clearance l (length pre)
  == (if Nat.eqb (length pre) 0
      then Qabs (target_z - r_point) / feedrate
      else Qabs (r_point - (prev_z + clearance)) / g0_speed
           + Qabs (target_z - (prev_z + clearance)) / feedrate)
     + Qabs (target_z - r_point) / g0_speed.
Proof.
  intros l prev_z target_z. unfold stage_minutes.
  subst target_z prev_z l.
  rewrite (depth_after_next r_point pre rest peck).
  destruct pre as [|p0 pre]; [|reflexivity].
  cbn [length Nat.eqb app nth].
  change (depth_after r_point (peck :: rest) 0) with r_point.
  assert (Ha : Qabs (r_point + geti peck "I" 0 - r_point)
               == Qabs (geti peck "I" 0)) by (apply Qabs_wd; ring).
  rewrite Ha. reflexivity.
Qed.

(** The loop started after the stages [pre] adds the minutes of the
    remaining stages. *)
Lemma drilling_loop_spec (feedrate r_point g0_speed clearance : Q)
    (l : list ijk) :
  0 < feedrate -> ~ g0_speed == 0 ->
  forall (rest pre : list ijk) (total_t : Q),
    l = (pre ++ rest)%list ->
    total_t == sum_minutes feedrate r_point g0_speed clearance l (length pre) ->
    exists t,
      drilling_loop feedrate r_point g0_speed false clearance (length pre) rest
                    total_t (depth_after r_point l (length pre)) = Ok t
      /\ t == sum_minutes feedrate r_point g0_speed clearance l (length l).
Proof.
  intros HF Hg.
  assert (HF' : ~ feedrate == 0) by lra.
  induction rest as [|peck rest IH]; intros pre total_t Hl Htot.
  - exists total_t. split; [reflexivity|].
    rewrite Htot, Hl, app_nil_r. reflexivity.
  - assert (Hlen : length (pre ++ [peck]) = S (length pre))
      by (rewrite length_app; simpl; lia).
    assert (Hl' : l = ((pre ++ [peck]) ++ rest)%list)
      by (now rewrite <- app_assoc).
    pose proof (depth_after_next r_point pre rest peck) as Hnext.
    pose proof (stage_minutes_step feedrate r_point g0_speed clearance
                  pre rest peck) as Hstage.
    cbv zeta in Hstage. rewrite <- Hl in Hnext, Hstage.
    cbn [drilling_loop].
    rewrite !(div_nonzero _ feedrate HF'), !(div_nonzero _ g0_speed Hg).
    set (prev_z := depth_after r_point l (length pre)) in *.
    set (target_z := prev_z + geti peck "I" 0) in *.
    specialize (IH (pre ++ [peck])%list).
    rewrite Hlen, Hnext in IH. fold target_z in IH.
    destruct (Nat.eqb (length pre) 0); cbn [mbind result_bind];
      match goal with
      | |- exists t, drilling_loop _ _ _ _ _ _ _ ?tot _ = _ /\ _ =>
        destruct (IH tot Hl') as (t & Ht & Hsum);
          [ cbn [sum_minutes]; rewrite Hstage, Htot; unfold Qdiv; ring
          | exists t; split; [|exact Hsum]; exact Ht ]
      end.
Qed.

(** C8. [calc_drilling_time] returns +infinity whenever [feedrate <= 0],
    for every stage list.  For [feedrate > 0] (and a rapid speed other than
    zero, which the divisions need) it returns the sum over the stages of:
    for the first stage the feed of its whole increment from R, for a later
    stage the rapid traverse from R to the previous depth plus the
    clearance and the feed of the rest down to its target depth, and for
    every stage the rapid retract from its target depth back to R; feed
    distances divided by the feedrate, rapid distances by the rapid speed. *)
Theorem calc_drilling_time_spec
    (ijk_list : list ijk) (feedrate r_point g0_speed clearance : Q)
    (is_ijk_mode : bool) :
  (feedrate <= 0 ->
   calc_drilling_time ijk_list feedrate r_point g0_speed is_ijk_mode clearance
   = Ok Infinite)
  /\ (0 < feedrate -> ~ g0_speed == 0 ->
      exists t,
        calc_drilling_time ijk_list feedrate r_point g0_speed is_ijk_mode clearance
        = Ok (Minutes t)
        /\ t == spec_minutes ijk_list feedrate r_point g0_speed clearance).
Proof.
  unfold calc_drilling_time. split.
  - intros HF. apply Qleb_le in HF. now rewrite HF.
  - intros HF Hg. apply Qleb_gt in HF. rewrite HF.
    apply Qleb_gt in HF.
    destruct (drilling_loop_spec feedrate r_point g0_speed clearance
                ijk_list HF Hg ijk_list [] 0 eq_refl) as (t & Ht & Hsum).
    + reflexivity.
    + exists t. split; [|exact Hsum].
      cbn [length] in Ht. change (depth_after r_point ijk_list 0) with r_point in Ht.
      destruct is_ijk_mode; [rewrite drilling_loop_mode|]; now rewrite Ht.
Qed.

(** With a zero rapid speed the first retract divides by zero. *)
Lemma calc_drilling_time_zero_rapid
    (peck : ijk) (rest : list ijk) (feedrate r_point g0_speed clearance : Q)
    (is_ijk_mode : bool) :
  0 < feedrate -> g0_speed == 0 ->
  calc_drilling_time (peck :: rest) feedrate r_point g0_speed is_ijk_mode clearance
  = Raise ZeroDivisionError.
Proof.
  intros HF Hg. unfold calc_drilling_time.
  assert (HF' : ~ feedrate == 0) by lra.
  apply Qleb_gt in HF. rewrite HF.
  destruct is_ijk_mode; cbn [drilling_loop Nat.eqb];
    rewrite (div_nonzero _ feedrate HF'); cbn [mbind result_bind];
    rewrite (div_zero _ g0_speed Hg); reflexivity.
Qed.

Lemma calc_drilling_time_spec_witness :
  calc_drilling_time [Sim.stage (-1) 1; Sim.stage (-1) 2] 0 0 5000 false 0.1
  = Ok Infinite
  /\ exists t,
       calc_drilling_time [Sim.stage (-1) 1; Sim.stage (-1) 2] 100 0 5000 false 0.1
       = Ok (Minutes t)
       /\ t == spec_minutes [Sim.stage (-1) 1; Sim.stage (-1) 2] 100 0 5000 0.1.
Proof.
  split.
  - apply (proj1 (calc_drilling_time_spec
                    [Sim.stage (-1) 1; Sim.stage (-1) 2] 0 0 5000 0.1 false)).
    apply Qle_refl.
  - apply (proj2 (calc_drilling_time_spec
                    [Sim.stage (-1) 1; Sim.stage (-1) 2] 100 0 5000 0.1 false)).
    + reflexivity.
    + intros H. discriminate H.
Defined.

(** C10. The estimate does not depend on the cycle-mode argument: for every
    stage list, feedrate, R point, rapid speed and clearance,
    [calc_drilling_time] returns the same result with [is_ijk_mode = True]
    as with [is_ijk_mode = False]. *)
Theorem calc_drilling_time_mode_independent
    (ijk_list : list ijk) (feedrate r_point g0_speed clearance : Q) :
  calc_drilling_time ijk_list feedrate r_point g0_speed true clearance
  = calc_drilling_time ijk_list feedrate r_point g0_speed false clearance.
Proof.
  unfold calc_drilling_time.
  destruct (Qle_bool feedrate 0); [reflexivity|].
  now rewrite drilling_loop_mode.
Qed.

End EngineFacts.


(** ** The drilling risk index *)

Module DriFacts.
Import Dri.

Local Open Scope R_scope.

Lemma pow14_nonneg (x : R) : 0 <= x -> exists p, pow14 x = Some p /\ 0 <= p.
Proof.
  intros Hx. unfold pow14.
  destruct (Rlt_dec x 0) as [Hlt|_]; [Lra.lra|].
  destruct (Req_dec_T x 0) as [_|_].
  - exists 0. split; [reflexivity | Lra.lra].
  - exists (Rpower x 1.4). split; [reflexivity|].
    left. unfold Rpower. apply exp_pos.
Qed.

(** [x ** 1.4] is strictly increasing on the non-negative floats. *)
Lemma pow14_increasing (x y : R) :
  0 <= x < y ->
  exists p q, pow14 x = Some p /\ pow14 y = Some q /\ p < q.
Proof.
  intros [Hx Hxy]. unfold pow14.
  destruct (Rlt_dec x 0) as [Hlt|_]; [Lra.lra|].
  destruct (Rlt_dec y 0) as [Hlt|_]; [Lra.lra|].
  destruct (Req_dec_T y 0) as [Hy0|_]; [Lra.lra|].
  destruct (Req_dec_T x 0) as [Hx0|Hx0].
  - exists 0, (Rpower y 1.4). repeat split. unfold Rpower. apply exp_pos.
  - exists (Rpower x 1.4), (Rpower y 1.4). repeat split.
    apply Rlt_Rpower_l; Lra.lra.
Qed.

Lemma calculate_dri_increasing (cfg : option config)
    (material_key coolant_mode tool_mat_key : string)
    (d1 depth1 d2 depth2 r_material r_coolant r_tool : R) :
  risk_factors material_key coolant_mode tool_mat_key cfg
  = (r_material, r_coolant, r_tool) ->
  0 < r_material -> 0 < r_coolant -> 0 < r_tool ->
  0 < d1 -> 0 < d2 -> 0 <= depth1 / d1 < depth2 / d2 ->
  exists x1 x2,
    calculate_dri d1 depth1 material_key coolant_mode tool_mat_key cfg = Some x1
    /\ calculate_dri d2 depth2 material_key coolant_mode tool_mat_key cfg = Some x2
    /\ x1 < x2.
Proof.
  intros Hf Hm Hc Ht Hd1 Hd2 Hratio.
  destruct (pow14_increasing _ _ Hratio) as (p & q & Hp & Hq & Hpq).
  destruct (pow14_nonneg (depth1 / d1) (proj1 Hratio)) as (p' & Hp' & Hp0).
  assert (p' = p) by congruence. subst p'.
  unfold calculate_dri.
  destruct (Rle_dec d1 0) as [H|_]; [Lra.lra|].
  destruct (Rle_dec d2 0) as [H|_]; [Lra.lra|].
  rewrite Hp, Hq, Hf. cbn.
  eexists _, _. split; [reflexivity|]. split; [reflexivity|].
  repeat apply Rmult_lt_compat_r; try assumption. Lra.lra.
Qed.

Lemma select_strategy_tiers (dri : R) :
  (dri < 6 -> select_strategy dri = "DIRECT"%string)
  /\ (6 <= dri < 18 -> select_strategy dri = "Q_MODE"%string)
  /\ (18 <= dri < 40 -> select_strategy dri = "IJK_DYNAMIC"%string)
  /\ (40 <= dri -> select_strategy dri = "DEEP_PROTECT"%string).
Proof.
  unfold select_strategy.
  repeat split; intros H;
    repeat (match goal with
            | |- context [Rlt_dec ?a ?b] => destruct (Rlt_dec a b)
            end); try reflexivity; Lra.lra.
Qed.

(** C6. For fixed positive material, coolant and tool-material factors the
    DRI is strictly increasing in the depth-to-diameter ratio (over the
    non-negative ratios of a positive diameter); and strategy selection maps
    DRI < 6 to DIRECT (no peck), 6 <= DRI < 18 to Q_MODE (constant peck),
    18 <= DRI < 40 to IJK_DYNAMIC (variable decay peck) and DRI >= 40 to
    DEEP_PROTECT, the boundaries 6, 18 and 40 belonging to the upper tier. *)
Theorem dri_increasing_and_tiers :
  (forall (cfg : option config) (material_key coolant_mode tool_mat_key : string)
          (d1 depth1 d2 depth2 r_material r_coolant r_tool : R),
      risk_factors material_key coolant_mode tool_mat_key cfg
      = (r_material, r_coolant, r_tool) ->
      0 < r_material -> 0 < r_coolant -> 0 < r_tool ->
      0 < d1 -> 0 < d2 -> 0 <= depth1 / d1 < depth2 / d2 ->
      exists x1 x2,
        calculate_dri d1 depth1 material_key coolant_mode tool_mat_key cfg = Some x1
        /\ calculate_dri d2 depth2 material_key coolant_mode tool_mat_key cfg = Some x2
        /\ x1 < x2)
  /\ (forall dri : R,
        (dri < 6 -> select_strategy dri = "DIRECT"%string)
        /\ (6 <= dri < 18 -> select_strategy dri = "Q_MODE"%string)
        /\ (18 <= dri < 40 -> select_strategy dri = "IJK_DYNAMIC"%string)
        /\ (40 <= dri -> select_strategy dri = "DEEP_PROTECT"%string)).
Proof.
  split; [exact calculate_dri_increasing | exact select_strategy_tiers].
Qed.

Lemma dri_increasing_and_tiers_witness :
  (exists x1 x2,
      calculate_dri 1 5 "AL6061" "MQL" "CARBIDE" None = Some x1
      /\ calculate_dri 1 10 "AL6061" "MQL" "CARBIDE" None = Some x2
      /\ x1 < x2)
  /\ select_strategy 5.999 = "DIRECT"%string
  /\ select_strategy 6 = "Q_MODE"%string
  /\ select_strategy 17.999 = "Q_MODE"%string
  /\ select_strategy 18 = "IJK_DYNAMIC"%string
  /\ select_strategy 39.999 = "IJK_DYNAMIC"%string
  /\ select_strategy 40 = "DEEP_PROTECT"%string
  /\ select_strategy 40.001 = "DEEP_PROTECT"%string.
Proof.
  destruct dri_increasing_and_tiers as [Hinc Htier].
  split.
  - apply (Hinc None "AL6061"%string "MQL"%string "CARBIDE"%string
             1 5 1 10 1 1 1); try reflexivity; Lra.lra.
  - repeat split.
    + apply (proj1 (Htier 5.999)); Lra.lra.
    + apply (proj1 (proj2 (Htier 6))); Lra.lra.
    + apply (proj1 (proj2 (Htier 17.999))); Lra.lra.
    + apply (proj1 (proj2 (proj2 (Htier 18)))); Lra.lra.
    + apply (proj1 (proj2 (proj2 (Htier 39.999)))); Lra.lra.
    + apply (proj2 (proj2 (proj2 (Htier 40)))); Lra.lra.
    + apply (proj2 (proj2 (proj2 (Htier 40.001)))); Lra.lra.
Defined.

End DriFacts.


(** ** The parser *)

Module ParserFacts.
Import Text Fmt Parser.

Local Open Scope string_scope.

(** *** Spindle speed update *)

(** C5. For every record of the parser, [update_spindle_speed] with
    [new_rpm <= 0], or on a record whose RPM line index is no line of the
    program (negative, or past the last line), returns [False] and leaves
    the parser as it was: the record's stored RPM and every line of the
    program text are unchanged. *)
Theorem update_spindle_speed_rejects
    (self : parser) (data_index : Z) (new_rpm : Q) (tool_data : tool_data) :
  (0 <= data_index)%Z ->
  tools_data self !! Z.to_nat data_index = Some tool_data ->
  (new_rpm <= 0)%Q
  \/ (rpm_line tool_data < 0)%Z
  \/ (Z.of_nat (length (nc_lines self)) <= rpm_line tool_data)%Z ->
  update_spindle_speed self data_index new_rpm = (false, self)
  /\ nc_lines (snd (update_spindle_speed self data_index new_rpm)) = nc_lines self
  /\ rpm <$> tools_data (snd (update_spindle_speed self data_index new_rpm))
             !! Z.to_nat data_index
     = Some (rpm tool_data).
Proof.
  intros Hidx Hlook Hbad.
  assert (H : update_spindle_speed self data_index new_rpm = (false, self)).
  { unfold update_spindle_speed.
    destruct ((data_index <? 0)%Z
              || (Z.of_nat (length (tools_data self)) <=? data_index)%Z);
      [reflexivity|].
    destruct (Qle_bool new_rpm 0) eqn:Hrpm; [reflexivity|].
    rewrite Hlook.
    destruct Hbad as [Hle | Hline].
    - apply Qleb_le in Hle. congruence.
    - assert (Hb : ((rpm_line tool_data <? 0)%Z
                    || (Z.of_nat (length (nc_lines self)) <=? rpm_line tool_data)%Z)
                   = true).
      { apply orb_true_iff. destruct Hline as [Hneg | Hbig].
        - left. now apply Z.ltb_lt.
        - right. now apply Z.leb_le. }
      now rewrite Hb. }
  rewrite H. cbn [snd]. rewrite Hlook. repeat split.
Qed.

Lemma update_spindle_speed_rejects_witness :
  let self := parsed test_program in
  exists tool_data,
    tools_data self !! 0%nat = Some tool_data
    /\ update_spindle_speed self 0 0 = (false, self)
    /\ nc_lines (snd (update_spindle_speed self 0 0)) = nc_lines self
    /\ rpm <$> tools_data (snd (update_spindle_speed self 0 0)) !! 0%nat
       = Some (rpm tool_data).
Proof.
  intros self.
  destruct (tools_data self !! 0%nat) as [tool_data|] eqn:Hlook;
    [|vm_compute in Hlook; discriminate].
  exists tool_data. split; [reflexivity|].
  apply (update_spindle_speed_rejects self 0 0 tool_data).
  - lia.
  - exact Hlook.
  - left. apply Qle_refl.
Defined.

(** An accepted update rewrites the S word of the recorded line, in
    place: it returns [True], the program keeps its length, the line at
    [rpm_line] becomes the old line with its leftmost [S<digits>] replaced
    by the new integer speed, every other line is untouched, and the
    record stores the integer speed. *)
Theorem update_spindle_speed_in_place
    (self : parser) (data_index : Z) (new_rpm : Q) (tool_data : tool_data)
    (old_line : string) :
  (0 <= data_index)%Z ->
  tools_data self !! Z.to_nat data_index = Some tool_data ->
  (0 < new_rpm)%Q ->
  (0 <= rpm_line tool_data)%Z ->
  nc_lines self !! Z.to_nat (rpm_line tool_data) = Some old_line ->
  exists self',
    update_spindle_speed self data_index new_rpm = (true, self')
    /\ length (nc_lines self') = length (nc_lines self)
    /\ nc_lines self' !! Z.to_nat (rpm_line tool_data)
       = Some (sub_digits_once "S" ("S" ++ string_of_Z (int_of_float new_rpm))
                               old_line)
    /\ (forall i : nat, i <> Z.to_nat (rpm_line tool_data) ->
                        nc_lines self' !! i = nc_lines self !! i)
    /\ rpm <$> tools_data self' !! Z.to_nat data_index
       = Some (int_of_float new_rpm).
Proof.
  intros Hidx Hlook Hrpm Hline Hold.
  pose proof (lookup_lt_Some _ _ _ Hlook) as Hlt.
  pose proof (lookup_lt_Some _ _ _ Hold) as Hlt'.
  unfold update_spindle_speed.
  assert (H1 : ((data_index <? 0)%Z
                || (Z.of_nat (length (tools_data self)) <=? data_index)%Z) = false).
  { apply orb_false_iff. split; [apply Z.ltb_ge | apply Z.leb_gt]; lia. }
  assert (H2 : ((rpm_line tool_data <? 0)%Z
                || (Z.of_nat (length (nc_lines self)) <=? rpm_line tool_data)%Z)
               = false).
  { apply orb_false_iff. split; [apply Z.ltb_ge | apply Z.leb_gt]; lia. }
  apply Qleb_gt in Hrpm.
  rewrite H1, Hrpm, Hlook, H2, Hold.
  eexists. split; [reflexivity|]. cbn [nc_lines tools_data].
  split; [apply length_insert|].
  split; [now apply list_lookup_insert_eq|].
  split; [intros i Hi; now apply list_lookup_insert_ne|].
  rewrite list_lookup_insert_eq by exact Hlt. reflexivity.
Qed.

Lemma update_spindle_speed_in_place_witness :
  let self := parsed test_program in
  exists self',
    update_spindle_speed self 0 9000.5 = (true, self')
    /\ length (nc_lines self') = length (nc_lines self)
    /\ nc_lines self' !! 3%nat
       = Some ("G0 G90 G54 X0 Y0 M03 S9000" ++ String "010" "")
    /\ (forall i : nat, i <> 3%nat -> nc_lines self' !! i = nc_lines self !! i)
    /\ rpm <$> tools_data self' !! 0%nat = Some 9000%Z.
Proof.
  intros self.
  destruct (tools_data self !! 0%nat) as [tool_data|] eqn:Hlook;
    [|vm_compute in Hlook; discriminate].
  assert (Hline : rpm_line tool_data = 3%Z).
  { assert (H : rpm_line <$> tools_data self !! 0%nat = Some 3%Z)
      by (vm_compute; reflexivity).
    rewrite Hlook in H. now injection H. }
  pose proof (update_spindle_speed_in_place self 0 9000.5 tool_data
                ("G0 G90 G54 X0 Y0 M03 S8000" ++ String "010" "")) as H.
  rewrite Hline in H. apply H.
  - lia.
  - exact Hlook.
  - reflexivity.
  - lia.
  - vm_compute. reflexivity.
Defined.

(** *** Spindle tracking during the scan *)

Lemma span_cons (f : ascii -> bool) (c : ascii) (r : string) :
  span f (String c r)
  = if f c then (String c (fst (span f r)), snd (span f r)) else ("", String c r).
Proof. cbn [span]. destruct (f c); [|reflexivity]. now destruct (span f r). Qed.

(** The prefix that [span] returns satisfies the test throughout. *)
Lemma span_prefix_all (f : ascii -> bool) (s : string) :
  snd (span f (fst (span f s))) = "".
Proof.
  induction s as [|c r IH]; [reflexivity|].
  rewrite span_cons. destruct (f c) eqn:E; [|reflexivity].
  cbn [fst]. rewrite span_cons, E. exact IH.
Qed.

(** What [re.search(c + r'(\d+)')] captures is a non-empty run of digits. *)
Lemma search_digits_shape (c : ascii) (s d : string) :
  search_digits c s = Some d -> is_empty d = false /\ all_digits d = true.
Proof.
  induction s as [|c' r IH]; [discriminate|].
  cbn [search_digits].
  destruct (Ascii.eqb c' c && negb (is_empty (fst (span is_digit r)))) eqn:E.
  - intros H. injection H as <-.
    apply andb_true_iff in E. destruct E as [_ E].
    apply negb_true_iff in E. split; [exact E|].
    unfold all_digits. now rewrite span_prefix_all.
  - exact IH.
Qed.

(** [int] accepts what the search captured. *)
Lemma int_of_captured (c : ascii) (s d : string) :
  search_digits c s = Some d ->
  int_of_string d = Ok (Z.of_N (digits_value 0 d)).
Proof.
  intros H. destruct (search_digits_shape c s d H) as [Hne Hall].
  unfold int_of_string. now rewrite Hne, Hall.
Qed.

(** Neither tool-change detection nor cycle detection touches the
    spindle state. *)
Lemma track_tool_spindle (st : scan_state) (idx : nat) (line : string) :
  current_spindle_rpm (track_tool st idx line) = current_spindle_rpm st
  /\ current_spindle_line (track_tool st idx line) = current_spindle_line st.
Proof. unfold track_tool. now destruct (search_digits "T" line). Qed.

Lemma detect_cycle_spindle (st st' : scan_state) (idx : nat) (line : string) :
  detect_cycle st idx line = Ok st' ->
  current_spindle_rpm st' = current_spindle_rpm st
  /\ current_spindle_line st' = current_spindle_line st.
Proof.
  unfold detect_cycle.
  destruct (contains "G66" line && contains "P9131" line).
  - destruct (_parse_g66_line _ _ _ _ _ _); [|discriminate].
    cbn. intros H. injection H as <-. now split.
  - destruct (contains "G83" line).
    + destruct (_parse_fixed_cycle_line _ _ _ _ _ _); [|discriminate].
      cbn. intros H. injection H as <-. now split.
    + intros H. injection H as <-. now split.
Qed.

(** A line that calls another macro with [G66] is not the macro cycle
    line, carries [S3000], and leaves the spindle state untouched. *)
Lemma rpm_tracking_counterexample :
  let line := "G66 P9100 S3000" in
  is_macro_cycle_line line = false
  /\ search_digits "S" line = Some "3000"
  /\ track_spindle scan_start 4 line = Ok scan_start
  /\ current_spindle_rpm scan_start = 0%Z
  /\ current_spindle_line scan_start = (-1)%Z
  /\ ~ rpm_tracked_off_macro_line.
Proof.
  cbv zeta. repeat split; try reflexivity.
  intros H.
  destruct (H scan_start 4%nat "G66 P9100 S3000" "3000" eq_refl eq_refl)
    as (st' & Hst & Hrpm & _).
  vm_compute in Hst. injection Hst as <-. vm_compute in Hrpm. discriminate.
Qed.

(** C4 (amended). During the scan, on every line that does not contain
    the text G66 the leftmost [S<digits>] match sets the current RPM to its
    value and the current RPM line index to that line's index; on every
    line that contains G66, the macro cycle line among them, the spindle
    state is left as it was, so an S token there is never read as RPM.  The
    rest of the loop body does not touch the spindle state. *)
Theorem rpm_tracking (st : scan_state) (idx : nat) (line : string) :
  (contains "G66" line = false ->
   forall digits, search_digits "S" line = Some digits ->
     track_spindle st idx line
     = Ok {| self := self st; current_tool := current_tool st;
             current_spindle_rpm := Z.of_N (digits_value 0 digits);
             current_spindle_line := Z.of_nat idx |})
  /\ (contains "G66" line = true -> track_spindle st idx line = Ok st)
  /\ (is_macro_cycle_line line = true -> track_spindle st idx line = Ok st)
  /\ (forall st1 st2,
        track_spindle st idx line = Ok st1 ->
        scan_line st idx line = Ok st2 ->
        current_spindle_rpm st2 = current_spindle_rpm st1
        /\ current_spindle_line st2 = current_spindle_line st1).
Proof.
  repeat split.
  - intros Hno digits Hs. unfold track_spindle.
    rewrite Hno, Hs. cbn [negb]. rewrite (int_of_captured _ _ _ Hs). reflexivity.
  - intros Hyes. unfold track_spindle. now rewrite Hyes.
  - intros Hmacro. unfold is_macro_cycle_line in Hmacro.
    apply andb_true_iff in Hmacro. destruct Hmacro as [Hyes _].
    unfold track_spindle. now rewrite Hyes.
  - unfold scan_line in H0. rewrite H in H0. cbn [mbind result_bind] in H0.
    destruct (detect_cycle_spindle _ _ _ _ H0) as [Hr _].
    rewrite Hr. apply track_tool_spindle.
  - unfold scan_line in H0. rewrite H in H0. cbn [mbind result_bind] in H0.
    destruct (detect_cycle_spindle _ _ _ _ H0) as [_ Hl].
    rewrite Hl. apply track_tool_spindle.
Qed.

Lemma rpm_tracking_witness :
  track_spindle scan_start 3 "G0 G90 G54 X0 Y0 M03 S8000"
  = Ok {| self := self scan_start; current_tool := current_tool scan_start;
          current_spindle_rpm := 8000;
          current_spindle_line := 3 |}
  /\ track_spindle scan_start 5 test_macro_line = Ok scan_start.
Proof.
  split.
  - exact (proj1 (rpm_tracking scan_start 3 "G0 G90 G54 X0 Y0 M03 S8000")
                 eq_refl "8000" eq_refl).
  - apply (proj1 (proj2 (proj2 (rpm_tracking scan_start 5 test_macro_line))));
      reflexivity.
Defined.

(** *** Extraction of the dynamic groups of a macro cycle line *)




Lemma number_ok (s : string) (q : Q) : float_of_string s = Ok q -> number s = q.
Proof. intros H. unfold number. now rewrite H. Qed.

Lemma is_number_nonempty (s : string) : is_number s -> is_empty s = false.
Proof. intros [q H]. destruct s; [discriminate | reflexivity]. Qed.











(** *** The matches of a written macro cycle line *)

Lemma append_cons (c : ascii) (a b : string) :
  String c a ++ b = String c (a ++ b).
Proof. reflexivity. Qed.

Lemma append_nil_l (b : string) : "" ++ b = b.
Proof. reflexivity. Qed.

Lemma append_assoc (a b c : string) : (a ++ b) ++ c = a ++ b ++ c.
Proof.
  induction a as [|x a IH]; [reflexivity|].
  rewrite !append_cons. now rewrite IH.
Qed.

Lemma append_nil_r (a : string) : a ++ "" = a.
Proof.
  induction a as [|x a IH]; [reflexivity|].
  rewrite append_cons. now rewrite IH.
Qed.


Lemma all_digits_cons (c : ascii) (d : string) :
  all_digits (String c d) = true -> is_digit c = true /\ all_digits d = true.
Proof.
  unfold all_digits. rewrite span_cons.
  destruct (is_digit c); [now split | discriminate].
Qed.

Lemma span_digits_app (d rest : string) :
  all_digits d = true -> no_digit_ahead rest ->
  span is_digit (d ++ rest) = (d, rest).
Proof.
  intros Hd Hrest. induction d as [|c d IH].
  - rewrite append_nil_l. destruct rest as [|c r]; [reflexivity|].
    cbn in Hrest. rewrite span_cons, Hrest. reflexivity.
  - apply all_digits_cons in Hd. destruct Hd as [Hc Hd].
    rewrite append_cons, span_cons, Hc, (IH Hd). reflexivity.
Qed.



Lemma digit_not_sign (c : ascii) : is_digit c = true -> in_class "-+" c = false.
Proof.
  intros H. cbn [in_class].
  destruct (Ascii.eqb c "-") eqn:E1;
    [apply Ascii.eqb_eq in E1; subst c; discriminate|].
  destruct (Ascii.eqb c "+") eqn:E2;
    [apply Ascii.eqb_eq in E2; subst c; discriminate|].
  reflexivity.
Qed.

Lemma digit_not_space (c : ascii) : is_digit c = true -> is_space c = false.
Proof.
  destruct c as [[] [] [] [] [] [] [] []]; try discriminate; reflexivity.
Qed.

Lemma digits_head (d : string) :
  digits d -> exists c r, d = String c r /\ is_digit c = true.
Proof.
  intros [Hne Hd]. destruct d as [|c r]; [discriminate|].
  exists c, r. split; [reflexivity|]. now apply all_digits_cons in Hd.
Qed.

(** The first character of the unsigned part of a numeral. *)
Lemma body_head (d1 d2 : string) :
  all_digits d1 = true ->
  exists c r, d1 ++ "." ++ d2 = String c r
              /\ in_class "-+" c = false /\ is_space c = false.
Proof.
  intros Hd1. destruct d1 as [|c r].
  - exists "."%char, d2. repeat split.
  - apply all_digits_cons in Hd1. destruct Hd1 as [Hc _].
    exists c, (r ++ "." ++ d2). split; [reflexivity|].
    split; [now apply digit_not_sign | now apply digit_not_space].
Qed.





Lemma float_of_string_unsigned (c : ascii) (r : string) :
  in_class "-+" c = false ->
  float_of_string (String c r) = float_unsigned (String c r).
Proof.
  destruct c as [[] [] [] [] [] [] [] []]; intros H;
    try reflexivity; discriminate.
Qed.

Lemma float_unsigned_int (d : string) :
  digits d -> exists q, float_unsigned d = Ok q.
Proof.
  intros [Hne Hd]. unfold float_unsigned.
  pose proof (span_digits_app d "" Hd I) as Hs.
  rewrite append_nil_r in Hs. rewrite Hs, Hne. now eexists.
Qed.

Lemma float_unsigned_frac (d1 d2 : string) :
  all_digits d1 = true -> digits d2 ->
  exists q, float_unsigned (d1 ++ "." ++ d2) = Ok q.
Proof.
  intros Hd1 [Hne Hd2]. unfold float_unsigned.
  rewrite (span_digits_app d1 ("." ++ d2) Hd1) by reflexivity.
  rewrite append_cons, append_nil_l, Hd2, Hne, andb_false_r. now eexists.
Qed.

(** [float] accepts every numeral. *)
Lemma numeral_is_number (text : string) : numeral text -> is_number text.
Proof.
  unfold is_number.
  intros [sign d Hsign Hd | sign d1 d2 Hsign Hd1 Hd2]; cbn [In] in Hsign.
  - destruct (float_unsigned_int d Hd) as [q Hq].
    destruct (digits_head d Hd) as (c & r & Heq & Hc).
    destruct Hsign as [<- | [<- | [<- | []]]].
    + exists q. rewrite append_nil_l, Heq.
      rewrite float_of_string_unsigned by (now apply digit_not_sign).
      now rewrite <- Heq.
    + exists (- q)%Q. rewrite append_cons, append_nil_l.
      cbn [float_of_string]. now rewrite Hq.
    + exists q. rewrite append_cons, append_nil_l.
      cbn [float_of_string]. exact Hq.
  - destruct (float_unsigned_frac d1 d2 Hd1 Hd2) as [q Hq].
    destruct (body_head d1 d2 Hd1) as (c & r & Heq & Hc & _).
    destruct Hsign as [<- | [<- | [<- | []]]].
    + exists q. rewrite append_nil_l, Heq.
      rewrite float_of_string_unsigned by exact Hc.
      now rewrite <- Heq.
    + exists (- q)%Q. rewrite append_cons, append_nil_l.
      cbn [float_of_string]. now rewrite Hq.
    + exists q. rewrite append_cons, append_nil_l.
      cbn [float_of_string]. exact Hq.
Qed.












Lemma test_items_matches :
  findall_words "RZSIJKT" 0 test_macro_line = matches_of test_items.
Proof. reflexivity. Qed.




(** *** The scenario of the parser test *)

(** Extraction keeps two groups of the three literal triples. *)
Lemma test_line_counterexample :
  (exists static dyn,
      g66_extract (findall_words "RZSIJKT" 0 test_macro_line) = Ok (static, dyn)
      /\ length dyn = 2%nat)
  /\ ~ three_groups_extracted.
Proof.
  pose (count := fun r : result (params * list ijk) =>
                   match r with Ok (_, l) => length l | Raise _ => 0%nat end).
  split.
  - destruct (g66_extract (findall_words "RZSIJKT" 0 test_macro_line))
      as [[static dyn]|e] eqn:E.
    + exists static, dyn. split; [reflexivity|].
      apply (f_equal count) in E. vm_compute in E. exact (eq_sym E).
    + apply (f_equal count) in E. vm_compute in E. discriminate.
  - intros (static & dyn & g1 & g2 & g3 & H & -> & _).
    apply (f_equal count) in H. vm_compute in H. discriminate.
Qed.

Lemma test_program_view :
  parse_view test_program
  = Ok [(5%nat, Some (-0.2), Some (-2.9),
         [(-2.9, 0.45, 100); (-1.0, 0.2, 50)])].
Proof. vm_compute. reflexivity. Qed.

Lemma parse_view_inv (lines : list string)
    (v : list (nat * option Q * option Q * list (Q * Q * Q))) :
  parse_view lines = Ok v ->
  exists p,
    parse_file lines = Ok p
    /\ map (fun td => (line_index td,
                       get_none (static_params td) "R",
                       get_none (static_params td) "Z",
                       map triple_of (dynamic_params td)))
           (tools_data p) = v.
Proof.
  unfold parse_view. destruct (parse_file lines) as [p|e]; [|discriminate].
  cbn [mbind result_bind]. intros H. injection H as H. now exists p.
Qed.

(** C9 (amended). For the macro cycle line with R=-0.2, Z=-2.9 and the
    literal triples (I-2.9, J0.45, K100), (I0, J0, K0), (I-1.0, J0.2, K50),
    parsing the test program yields one record, on line 5, with R=-0.2,
    Z=-2.9 and exactly two dynamic groups, (-2.9, 0.45, 100) and
    (-1.0, 0.2, 50), in that order, matching the literal tokens; the
    all-zero triple is filtered out. *)
Theorem test_line_groups :
  exists p td,
    parse_file test_program = Ok p
    /\ tools_data p = [td]
    /\ line_index td = 5%nat
    /\ get_none (static_params td) "R" = Some (-0.2)
    /\ get_none (static_params td) "Z" = Some (-2.9)
    /\ map triple_of (dynamic_params td) = [(-2.9, 0.45, 100); (-1.0, 0.2, 50)]
    /\ length (dynamic_params td) = 2%nat.
Proof.
  destruct (parse_view_inv test_program _ test_program_view) as (p & Hp & Hv).
  exists p.
  destruct (tools_data p) as [|td [|td' l]] eqn:Etd; try discriminate.
  cbn [map] in Hv. injection Hv as H1 H2 H3 H4.
  exists td. repeat split; try assumption.
  apply (f_equal (@length _)) in H4. now rewrite length_map in H4.
Qed.

(** *** Rewriting a line and parsing it again *)

Lemma precise_program_view :
  roundtrip_view precise_program 0
  = Ok (Some 2, Some (-123.4567),
        "G66 P9131 R2 Z-123.457 I-1 J0.2 K50",
        Some 2, Some (-123.457)).
Proof. vm_compute. reflexivity. Qed.

Lemma small_program_view :
  roundtrip_view small_program 0
  = Ok (Some 0.00001, Some (-5),
        "G66 P9131 R1e-05 Z-5 I-1 J0.2 K50",
        Some 1, Some (-5)).
Proof. vm_compute. reflexivity. Qed.

Lemma test_program_roundtrip_view :
  roundtrip_view test_program 0
  = Ok (Some (-0.2), Some (-2.9),
        "G66 P9131 R-0.2 Z-2.9 I-2.9 J0.45 K100 I-1 J0.2 K50",
        Some (-0.2), Some (-2.9)).
Proof. vm_compute. reflexivity. Qed.

Lemma roundtrip_view_inv (lines : list string) (data_index : nat)
    (r z r' z' : option Q) (line : string) :
  roundtrip_view lines data_index = Ok (r, z, line, r', z') ->
  exists before after,
    roundtrip lines data_index = Ok (before, after)
    /\ get_none (static_params before) "R" = r
    /\ get_none (static_params before) "Z" = z
    /\ original_line after = line
    /\ get_none (static_params after) "R" = r'
    /\ get_none (static_params after) "Z" = z'.
Proof.
  unfold roundtrip_view.
  destruct (roundtrip lines data_index) as [[before after]|e]; [|discriminate].
  cbn [mbind result_bind]. intros H. injection H as H1 H2 H3 H4 H5.
  exists before, after. repeat split; assumption.
Qed.

(** Rewriting a record's line replaces that line alone: the call returns
    [True], the program keeps its length, the line at [line_index] becomes
    the rebuilt text, every other line is untouched, and the record takes
    the new parameters while its line index and initial snapshots stay. *)
Theorem update_g66_line_in_place
    (self : parser) (data_index : Z) (new_static : params)
    (new_dynamic_list : list ijk) (tool_data : tool_data) :
  (0 <= data_index)%Z ->
  tools_data self !! Z.to_nat data_index = Some tool_data ->
  (line_index tool_data < length (nc_lines self))%nat ->
  exists self' tool_data',
    update_g66_line self data_index new_static new_dynamic_list = Ok (true, self')
    /\ length (nc_lines self') = length (nc_lines self)
    /\ nc_lines self' !! line_index tool_data
       = Some (rebuild_line tool_data new_static new_dynamic_list)
    /\ (forall i : nat, i <> line_index tool_data ->
                        nc_lines self' !! i = nc_lines self !! i)
    /\ tools_data self' !! Z.to_nat data_index = Some tool_data'
    /\ static_params tool_data' = new_static
    /\ dynamic_params tool_data' = new_dynamic_list
    /\ line_index tool_data' = line_index tool_data
    /\ initial_static tool_data' = initial_static tool_data
    /\ initial_dynamic tool_data' = initial_dynamic tool_data.
Proof.
  intros Hidx Hlook Hline.
  pose proof (lookup_lt_Some _ _ _ Hlook) as Hlt.
  unfold update_g66_line.
  assert (H1 : ((data_index <? 0)%Z
                || (Z.of_nat (length (tools_data self)) <=? data_index)%Z) = false).
  { apply orb_false_iff. split; [apply Z.ltb_ge | apply Z.leb_gt]; lia. }
  assert (H2 : (length (nc_lines self) <=? line_index tool_data)%nat = false)
    by (apply Nat.leb_gt; exact Hline).
  rewrite H1, Hlook, H2.
  eexists _, _. split; [reflexivity|]. cbn [nc_lines tools_data].
  split; [apply length_insert|].
  split; [now apply list_lookup_insert_eq|].
  split; [intros i Hi; now apply list_lookup_insert_ne|].
  split; [now apply list_lookup_insert_eq|].
  repeat split.
Qed.

Lemma update_g66_line_in_place_witness :
  let self := parsed test_program in
  exists self' tool_data tool_data',
    tools_data self !! 0%nat = Some tool_data
    /\ update_g66_line self 0 (static_params tool_data) [] = Ok (true, self')
    /\ length (nc_lines self') = length (nc_lines self)
    /\ nc_lines self' !! line_index tool_data
       = Some (rebuild_line tool_data (static_params tool_data) [])
    /\ (forall i : nat, i <> line_index tool_data ->
                        nc_lines self' !! i = nc_lines self !! i)
    /\ tools_data self' !! 0%nat = Some tool_data'
    /\ static_params tool_data' = static_params tool_data
    /\ dynamic_params tool_data' = []
    /\ line_index tool_data' = line_index tool_data
    /\ initial_static tool_data' = initial_static tool_data
    /\ initial_dynamic tool_data' = initial_dynamic tool_data.
Proof.
  intros self.
  destruct (tools_data self !! 0%nat) as [tool_data|] eqn:Hlook;
    [|vm_compute in Hlook; discriminate].
  assert (Hline : line_index tool_data = 5%nat).
  { assert (H : line_index <$> tools_data self !! 0%nat = Some 5%nat)
      by (vm_compute; reflexivity).
    rewrite Hlook in H. now injection H. }
  destruct (update_g66_line_in_place self 0 (static_params tool_data) []
              tool_data) as (self' & tool_data' & H).
  - lia.
  - exact Hlook.
  - rewrite Hline. vm_compute. lia.
  - exists self', tool_data, tool_data'. split; [reflexivity | exact H].
Defined.

(** C1 fails on the code.  Rewriting a parsed macro cycle line with its
    unchanged parameters and parsing it again changes a parameter by more
    than 1e-6: a depth of seven significant digits, Z-123.4567, is written
    as Z-123.457 and read back as -123.457; a retract height below 1e-4,
    R0.00001, is written as R1e-05 and read back as 1. *)
Theorem roundtrip_not_identity :
  (exists before after,
      roundtrip precise_program 0 = Ok (before, after)
      /\ get_none (static_params before) "Z" = Some (-123.4567)
      /\ original_line after = "G66 P9131 R2 Z-123.457 I-1 J0.2 K50"
      /\ get_none (static_params after) "Z" = Some (-123.457)
      /\ (eps < Qabs (-123.4567 - -123.457))%Q)
  /\ (exists before after,
        roundtrip small_program 0 = Ok (before, after)
        /\ get_none (static_params before) "R" = Some 0.00001
        /\ original_line after = "G66 P9131 R1e-05 Z-5 I-1 J0.2 K50"
        /\ get_none (static_params after) "R" = Some 1
        /\ (eps < Qabs (0.00001 - 1))%Q).
Proof.
  split.
  - destruct (roundtrip_view_inv _ _ _ _ _ _ _ precise_program_view)
      as (before & after & H & _ & Hz & Hline & _ & Hz').
    exists before, after. repeat split; assumption || reflexivity.
  - destruct (roundtrip_view_inv _ _ _ _ _ _ _ small_program_view)
      as (before & after & H & Hr & _ & Hline & Hr' & _).
    exists before, after. repeat split; assumption || reflexivity.
Qed.

End ParserFacts.


(** * Further properties of the parser and the engine *)

(** ** What a scan establishes about its records *)

Module LocatedFacts.
Import Text Parser Located ParserFacts.

Local Open Scope string_scope.

Lemma parse_g66_line_record (self self' : parser) (idx : nat) (line : string)
    (tool : string) (rpm0 rl : Z) :
  _parse_g66_line self idx line tool rpm0 rl = Ok self' ->
  exists td,
    self' = set_tools_data self (tools_data self ++ [td])
    /\ line_index td = idx /\ tool_id td = tool
    /\ rpm td = rpm0 /\ rpm_line td = rl
    /\ cycle_type td = "G66" /\ fresh td.
Proof.
  unfold _parse_g66_line.
  destruct (g66_extract _) as [[static dyn]|e]; [|discriminate].
  cbn [mbind result_bind]. intros H. injection H as <-.
  eexists. split; [reflexivity|]. repeat split.
Qed.

Lemma parse_fixed_cycle_line_record (self self' : parser) (idx : nat)
    (line : string) (tool : string) (rpm0 rl : Z) :
  _parse_fixed_cycle_line self idx line tool rpm0 rl = Ok self' ->
  exists td,
    self' = set_tools_data self (tools_data self ++ [td])
    /\ line_index td = idx /\ tool_id td = tool
    /\ rpm td = rpm0 /\ rpm_line td = rl
    /\ cycle_type td = "G83" /\ fresh td.
Proof.
  unfold _parse_fixed_cycle_line.
  destruct (fixed_tokens _ _) as [static|e]; [|discriminate].
  cbn [mbind result_bind].
  destruct (fixed_resolve _ _ _) as [[static' mode]|e]; [|discriminate].
  cbn [mbind result_bind].
  destruct (Sim._g83_to_ijk _ _) as [dyn|e]; [|discriminate].
  cbn [mbind result_bind]. intros H. injection H as <-.
  eexists. split; [reflexivity|]. repeat split.
Qed.

Lemma spindle_kept_step (lines : list string) (from n : nat) (line : string) :
  spindle_kept lines from n -> lines !! n = Some line ->
  sets_spindle line = false -> spindle_kept lines from (S n).
Proof.
  intros Hk Hline Hno i line' Hi Hl.
  destruct (Nat.eq_dec i n) as [-> | Hne].
  - rewrite Hline in Hl. now injection Hl as <-.
  - apply (Hk i line'); [lia | exact Hl].
Qed.

Lemma spindle_source_step (lines : list string) (n : nat) (rpm0 rl : Z)
    (line : string) :
  spindle_source lines n rpm0 rl -> lines !! n = Some line ->
  sets_spindle line = false -> spindle_source lines (S n) rpm0 rl.
Proof.
  intros [(H1 & H2 & Hk) | (l & digits & Hr & Hl & Hg & Hs & Hv & Hk)] Hline Hno.
  - left. repeat split; try assumption.
    now apply (spindle_kept_step lines 0 n line).
  - right. exists l, digits. repeat split; try assumption; try lia.
    now apply (spindle_kept_step lines _ n line).
Qed.

Lemma track_tool_source (lines : list string) (n : nat) (st : scan_state)
    (line : string) :
  tool_source lines n (current_tool st) -> lines !! n = Some line ->
  tool_source lines (S n) (current_tool (track_tool st n line)).
Proof.
  intros Hsrc Hline. unfold track_tool.
  destruct (search_digits "T" line) as [found_id|] eqn:Ht.
  - cbn [current_tool]. right. exists n, line.
    repeat split; try assumption; try lia. intros i line' Hi. lia.
  - assert (Hstep : forall from, tool_kept lines from n ->
                                 tool_kept lines from (S n)).
    { intros from Hk i line' Hi Hl.
      destruct (Nat.eq_dec i n) as [-> | Hne].
      - rewrite Hline in Hl. now injection Hl as <-.
      - apply (Hk i line'); [lia | exact Hl]. }
    destruct Hsrc as [[H1 Hk] | (i & l & Hi & Hl & Hs & Hk)].
    + left. split; [exact H1 | now apply Hstep].
    + right. exists i, l. repeat split; try assumption; try lia.
      now apply Hstep.
Qed.

Lemma increasing_snoc (l : list nat) (x : nat) :
  increasing l -> Forall (fun y => (y < x)%nat) l -> increasing (l ++ [x]).
Proof.
  induction l as [|y l IH]; intros Hinc Hall.
  - cbn. split; [constructor | exact I].
  - cbn [app increasing] in *. destruct Hinc as [Hy Hinc].
    inversion Hall as [|? ? Hyx Hall']; subst. split.
    + apply Forall_app. split; [exact Hy | now repeat constructor].
    + now apply IH.
Qed.

(** Spindle tracking on line [n] keeps the text and the records, and
    leaves a spindle state read from the lines up to [n]. *)
Lemma track_spindle_inv (lines : list string) (n : nat) (st st' : scan_state)
    (line : string) :
  spindle_source lines n (current_spindle_rpm st) (current_spindle_line st) ->
  lines !! n = Some line ->
  track_spindle st n line = Ok st' ->
  self st' = self st /\ current_tool st' = current_tool st
  /\ spindle_source lines (S n) (current_spindle_rpm st') (current_spindle_line st').
Proof.
  intros Hsrc Hline. unfold track_spindle.
  destruct (contains "G66" line) eqn:Hg; cbn [negb].
  - intros H. injection H as <-. repeat split.
    apply (spindle_source_step lines n _ _ line Hsrc Hline).
    unfold sets_spindle. now rewrite Hg.
  - destruct (search_digits "S" line) as [digits|] eqn:Hs.
    + destruct (int_of_string digits) as [v|e] eqn:Hv; [|discriminate].
      cbn [mbind result_bind]. intros H. injection H as <-.
      cbn. repeat split. right. exists line, digits.
      rewrite Nat2Z.id. repeat split; try assumption; try lia.
      intros i line' Hi. lia.
    + intros H. injection H as <-. repeat split.
      apply (spindle_source_step lines n _ _ line Hsrc Hline).
      unfold sets_spindle. now rewrite Hs, andb_false_r.
Qed.

Lemma track_tool_inv (st : scan_state) (n : nat) (line : string) :
  nc_lines (self (track_tool st n line)) = nc_lines (self st)
  /\ tools_data (self (track_tool st n line)) = tools_data (self st).
Proof.
  unfold track_tool. destruct (search_digits "T" line); [|now split].
  cbn [self]. now destruct (_scan_for_diameter (self st) n).
Qed.

(** Cycle detection on line [n] appends at most one record, located on
    line [n] and carrying the spindle state and the tool in force. *)
Lemma detect_cycle_inv (st st' : scan_state) (n : nat) (line : string) :
  detect_cycle st n line = Ok st' ->
  nc_lines (self st') = nc_lines (self st)
  /\ current_tool st' = current_tool st
  /\ current_spindle_rpm st' = current_spindle_rpm st
  /\ current_spindle_line st' = current_spindle_line st
  /\ ((is_cycle_line line = false /\ tools_data (self st') = tools_data (self st))
      \/ exists td,
           tools_data (self st') = (tools_data (self st) ++ [td])%list
           /\ line_index td = n /\ tool_id td = current_tool st
           /\ rpm td = current_spindle_rpm st
           /\ rpm_line td = current_spindle_line st
           /\ fresh td
           /\ ((cycle_type td = "G66" /\ is_macro_cycle_line line = true)
               \/ (cycle_type td = "G83" /\ is_macro_cycle_line line = false
                   /\ contains "G83" line = true))).
Proof.
  unfold detect_cycle, is_cycle_line. fold (is_macro_cycle_line line).
  destruct (is_macro_cycle_line line) eqn:Hm.
  - destruct (_parse_g66_line _ _ _ _ _ _) as [self'|e] eqn:Hp; [|discriminate].
    cbn [mbind result_bind]. intros H. injection H as <-. cbn.
    destruct (parse_g66_line_record _ _ _ _ _ _ _ Hp)
      as (td & -> & Hidx & Htool & Hrpm & Hrl & Hty & Hfresh).
    cbn. repeat split. right. exists td. repeat split; try assumption.
    + apply Hfresh.
    + apply Hfresh.
    + apply Hfresh.
    + apply Hfresh.
    + left. now split.
  - destruct (contains "G83" line) eqn:H83.
    + destruct (_parse_fixed_cycle_line _ _ _ _ _ _) as [self'|e] eqn:Hp;
        [|discriminate].
      cbn [mbind result_bind]. intros H. injection H as <-. cbn.
      destruct (parse_fixed_cycle_line_record _ _ _ _ _ _ _ Hp)
        as (td & -> & Hidx & Htool & Hrpm & Hrl & Hty & Hfresh).
      cbn. repeat split. right. exists td. repeat split; try assumption.
      * apply Hfresh.
      * apply Hfresh.
      * apply Hfresh.
      * apply Hfresh.
      * right. now repeat split.
    + intros H. injection H as <-. repeat split. now left.
Qed.

Lemma cycle_kind (line : string) (ty : string) :
  (ty = "G66" /\ is_macro_cycle_line line = true)
  \/ (ty = "G83" /\ is_macro_cycle_line line = false
      /\ contains "G83" line = true) ->
  is_cycle_line line = true.
Proof.
  unfold is_cycle_line. intros [[_ ->] | (_ & -> & ->)]; reflexivity.
Qed.

(** One iteration of the loop keeps the invariant. *)
Lemma scan_line_inv (lines : list string) (n : nat) (st st' : scan_state)
    (line : string) :
  scan_inv lines n st -> lines !! n = Some line ->
  scan_line st n line = Ok st' -> scan_inv lines (S n) st'.
Proof.
  intros (Htext & Hrec & Hinc & Hsrc & Htool) Hline. unfold scan_line.
  destruct (track_spindle st n line) as [st1|e] eqn:Hs; [|discriminate].
  cbn [mbind result_bind]. intros Hd.
  destruct (track_spindle_inv lines n st st1 line Hsrc Hline Hs)
    as (Hself & Htool1 & Hsrc1).
  rewrite <- Htool1 in Htool.
  pose proof (track_tool_source lines n st1 line Htool Hline) as Htool2.
  destruct (track_tool_inv st1 n line) as [Htext2 Hrec2].
  destruct (track_tool_spindle st1 n line) as [Hr2 Hl2].
  destruct (detect_cycle_inv _ _ _ _ Hd) as (Htext3 & Ht3 & Hr3 & Hl3 & Hrec3).
  rewrite Hself in Htext2, Hrec2.
  assert (Hold : Forall (fun td => (line_index td < S n)%nat /\ located lines td)
                        (tools_data (self st))).
  { eapply List.Forall_impl; [|exact Hrec]. intros td [Hlt Hloc].
    split; [lia | exact Hloc]. }
  unfold scan_inv. rewrite Htext3, Htext2, Ht3, Hr3, Hl3, Hr2, Hl2.
  split; [exact Htext|].
  destruct Hrec3
    as [[_ ->] | (td & -> & Hidx & Htid & Hrpm & Hrl & Hfresh & Hkind)].
  - rewrite Hrec2. repeat split; assumption.
  - rewrite Hrec2. split; [|split; [|split; [exact Hsrc1 | exact Htool2]]].
    + apply Forall_app. split; [exact Hold|].
      constructor; [|constructor]. rewrite Hidx. split; [lia|].
      split; [|split; [|split; [|exact Hfresh]]].
      * exists line. rewrite Hidx. split; [exact Hline | exact Hkind].
      * rewrite Hidx, Hrpm, Hrl, Hr2, Hl2. exact Hsrc1.
      * rewrite Hidx, Htid. exact Htool2.
    + rewrite map_app. cbn [map]. apply increasing_snoc; [exact Hinc|].
      rewrite Forall_map. eapply List.Forall_impl; [|exact Hrec].
      intros td' [Hlt _]. cbn. lia.
Qed.

(** The loop keeps the invariant to the end of the text. *)
Lemma scan_inv_end (lines rest : list string) :
  forall (pre : list string) (st st' : scan_state),
    lines = (pre ++ rest)%list ->
    scan_inv lines (length pre) st ->
    scan st (length pre) rest = Ok st' ->
    scan_inv lines (length lines) st'.
Proof.
  induction rest as [|line rest IH]; intros pre st st' Hl Hinv.
  - cbn [scan]. intros H. injection H as <-.
    rewrite app_nil_r in Hl. subst lines. exact Hinv.
  - cbn [scan].
    destruct (scan_line st (length pre) line) as [st1|e] eqn:Hs; [|discriminate].
    cbn [mbind result_bind]. intros Hscan.
    assert (Hline : lines !! length pre = Some line).
    { rewrite Hl. rewrite lookup_app_r by lia.
      now rewrite Nat.sub_diag. }
    pose proof (scan_line_inv lines _ st st1 line Hinv Hline Hs) as Hinv1.
    apply (IH (pre ++ [line])%list st1 st').
    + now rewrite <- app_assoc.
    + rewrite length_app. cbn [length]. now rewrite Nat.add_1_r.
    + rewrite length_app. cbn [length]. now rewrite Nat.add_1_r.
Qed.

(** What [parse_file] returns satisfies the invariant at the end. *)
Lemma parse_file_inv (lines : list string) (p : parser) :
  parse_file lines = Ok p ->
  nc_lines p = lines
  /\ Forall (fun td => (line_index td < length lines)%nat /\ located lines td)
            (tools_data p)
  /\ increasing (map line_index (tools_data p)).
Proof.
  unfold parse_file.
  destruct (scan _ 0 lines) as [st|e] eqn:Hs; [|discriminate].
  cbn [mbind result_bind]. intros H. injection H as <-.
  match type of Hs with scan ?st0 _ _ = _ =>
    destruct (scan_inv_end lines lines [] st0 st eq_refl) as (H1 & H2 & H3 & _ & _)
  end.
  - split; [reflexivity|]. split; [constructor|]. split; [exact I|].
    split.
    + left. repeat split. intros i line Hi. cbn in Hi. lia.
    + left. split; [reflexivity|]. intros i line Hi. cbn in Hi. lia.
  - exact Hs.
  - now repeat split.
Qed.

(** The records of a scan are those of the cycle lines, in order. *)
Lemma scan_indices (rest : list string) :
  forall (st st' : scan_state) (n : nat),
    scan st n rest = Ok st' ->
    map line_index (tools_data (self st'))
    = (map line_index (tools_data (self st)) ++ cycle_lines n rest)%list.
Proof.
  induction rest as [|line rest IH]; intros st st' n.
  - cbn [scan cycle_lines]. intros H. injection H as <-. now rewrite app_nil_r.
  - cbn [scan cycle_lines]. unfold scan_line at 1.
    destruct (track_spindle st n line) as [st1|e] eqn:Hs; [|discriminate].
    cbn [mbind result_bind].
    destruct (detect_cycle (track_tool st1 n line) n line) as [st2|e] eqn:Hd;
      [|discriminate].
    cbn [mbind result_bind]. intros Hscan. rewrite (IH _ _ _ Hscan).
    destruct (detect_cycle_inv _ _ _ _ Hd) as (_ & _ & _ & _ & Hrec).
    destruct (track_tool_inv st1 n line) as [_ Hrec2].
    assert (Hself : self st1 = self st).
    { revert Hs. unfold track_spindle.
      destruct (negb (contains "G66" line)); [|now intros [= <-]].
      destruct (search_digits "S" line); [|now intros [= <-]].
      destruct (int_of_string s); [|discriminate].
      cbn [mbind result_bind]. now intros [= <-]. }
    rewrite Hself in Hrec2.
    destruct Hrec as [[-> ->] | (td & -> & Hidx & _ & _ & _ & _ & Hkind)].
    + now rewrite Hrec2.
    + rewrite (cycle_kind _ _ Hkind), Hrec2, map_app, <- app_assoc.
      cbn [map app]. now rewrite Hidx.
Qed.

Lemma returns_parsed (lines : list string) :
  returns lines = true -> parse_file lines = Ok (parsed lines).
Proof.
  unfold returns, parsed. destruct (parse_file lines); [reflexivity | discriminate].
Qed.

Lemma mixed_program_returns : returns mixed_program = true.
Proof. vm_compute. reflexivity. Qed.

(** X3. After [parse_file] the parser holds the text it was given, line
    for line, and every record's initial snapshots (static parameters,
    stage list, spindle speed, mode) equal its current values. *)
Theorem parse_file_keeps_text (lines : list string) (p : parser) :
  parse_file lines = Ok p ->
  nc_lines p = lines /\ Forall fresh (tools_data p).
Proof.
  intros H. destruct (parse_file_inv lines p H) as (Htext & Hrec & _).
  split; [exact Htext|].
  eapply List.Forall_impl; [|exact Hrec].
  intros td (_ & _ & _ & _ & Hf). exact Hf.
Qed.

Lemma parse_file_keeps_text_witness :
  parse_file mixed_program = Ok (parsed mixed_program)
  /\ nc_lines (parsed mixed_program) = mixed_program
  /\ Forall fresh (tools_data (parsed mixed_program)).
Proof.
  split; [exact (returns_parsed _ mixed_program_returns)|].
  exact (parse_file_keeps_text _ _ (returns_parsed _ mixed_program_returns)).
Defined.

(** X4. [parse_file] makes one record for each line that carries both
    G66 and P9131 or, failing that, G83, and for no other line: the line
    indexes of the records are the indexes of these lines in text order,
    strictly increasing and inside the text, and a record has cycle type
    G66 on a line of the first kind and G83 on a line of the second. *)
Theorem parse_file_cycle_lines (lines : list string) (p : parser) :
  parse_file lines = Ok p ->
  map line_index (tools_data p) = cycle_lines 0 lines
  /\ increasing (map line_index (tools_data p))
  /\ Forall (fun td => (line_index td < length lines)%nat
                       /\ on_cycle_line lines td) (tools_data p).
Proof.
  intros H. destruct (parse_file_inv lines p H) as (_ & Hrec & Hinc).
  split; [|split; [exact Hinc|]].
  - revert H. unfold parse_file.
    destruct (scan _ 0 lines) as [st|e] eqn:Hs; [|discriminate].
    cbn [mbind result_bind]. intros [= <-].
    now rewrite (scan_indices _ _ _ _ Hs).
  - eapply List.Forall_impl; [|exact Hrec].
    intros td (Hlt & Hon & _). now split.
Qed.

Lemma parse_file_cycle_lines_witness :
  parse_file mixed_program = Ok (parsed mixed_program)
  /\ map line_index (tools_data (parsed mixed_program)) = cycle_lines 0 mixed_program
  /\ increasing (map line_index (tools_data (parsed mixed_program)))
  /\ Forall (fun td => (line_index td < length mixed_program)%nat
                       /\ on_cycle_line mixed_program td)
            (tools_data (parsed mixed_program)).
Proof.
  split; [exact (returns_parsed _ mixed_program_returns)|].
  exact (parse_file_cycle_lines _ _ (returns_parsed _ mixed_program_returns)).
Defined.

(** X5. The spindle speed of a record of [parse_file] is the one in
    force on its line.  Call a line speed-setting when it has no G66 and
    carries an S followed by a digit.  Either no line up to and including
    the record's line is speed-setting, and the record has rpm 0 and
    rpm_line -1; or rpm_line is the last speed-setting line up to and
    including the record's line, and rpm is the integer after the leftmost
    S of that line that a digit follows. *)
Theorem parse_file_spindle_source (lines : list string) (p : parser) :
  parse_file lines = Ok p ->
  Forall (fun td => spindle_source lines (S (line_index td)) (rpm td) (rpm_line td))
         (tools_data p).
Proof.
  intros H. destruct (parse_file_inv lines p H) as (_ & Hrec & _).
  eapply List.Forall_impl; [|exact Hrec]. intros td (_ & _ & Hs & _). exact Hs.
Qed.

Lemma parse_file_spindle_source_witness :
  parse_file mixed_program = Ok (parsed mixed_program)
  /\ Forall (fun td => spindle_source mixed_program (S (line_index td))
                                     (rpm td) (rpm_line td))
            (tools_data (parsed mixed_program)).
Proof.
  split; [exact (returns_parsed _ mixed_program_returns)|].
  exact (parse_file_spindle_source _ _ (returns_parsed _ mixed_program_returns)).
Defined.

(** X6. The tool of a record of [parse_file] is the one in force on its
    line: [Unknown] when no line up to and including the record's line has
    a T followed by a digit; otherwise the digits after the leftmost such T
    of the last such line, the record's own line included, so that a T word
    on a macro cycle line itself names the record's tool. *)
Theorem parse_file_tool_source (lines : list string) (p : parser) :
  parse_file lines = Ok p ->
  Forall (fun td => tool_source lines (S (line_index td)) (tool_id td))
         (tools_data p).
Proof.
  intros H. destruct (parse_file_inv lines p H) as (_ & Hrec & _).
  eapply List.Forall_impl; [|exact Hrec].
  intros td (_ & _ & _ & Ht & _). exact Ht.
Qed.

Lemma parse_file_tool_source_witness :
  parse_file mixed_program = Ok (parsed mixed_program)
  /\ Forall (fun td => tool_source mixed_program (S (line_index td)) (tool_id td))
            (tools_data (parsed mixed_program)).
Proof.
  split; [exact (returns_parsed _ mixed_program_returns)|].
  exact (parse_file_tool_source _ _ (returns_parsed _ mixed_program_returns)).
Defined.

End LocatedFacts.

(** ** What the regular expressions capture *)

Module CaptureFacts.
Import Num Text Parser ParserFacts Shape.

Local Open Scope string_scope.

Lemma span_all_digits (s : string) : all_digits (fst (span is_digit s)) = true.
Proof. unfold all_digits. now rewrite span_prefix_all. Qed.

(** What [(?:\d*\.\d+|\d+)] matches is a run of digits, or digits, a
    point and a run of digits. *)
Lemma match_number_shape (s t rest : string) :
  match_number s = Some (t, rest) ->
  digits t
  \/ exists d1 d2, t = d1 ++ "." ++ d2 /\ all_digits d1 = true /\ digits d2.
Proof.
  unfold match_number.
  pose proof (span_all_digits s) as Hd1.
  destruct (span is_digit s) as [d1 r1]. cbn [fst] in Hd1.
  assert (Hplain : (if is_empty d1 then None else Some (d1, r1)) = Some (t, rest) ->
                   digits t).
  { destruct (is_empty d1) eqn:E; [discriminate|].
    intros [= <- <-]. now split. }
  destruct r1 as [|c r2]; [intros H; left; now apply Hplain|].
  destruct (Ascii.eqb c ".") eqn:Ec.
  - apply Ascii.eqb_eq in Ec. subst c.
    pose proof (span_all_digits r2) as Hd2.
    destruct (span is_digit r2) as [d2 r3]. cbn [fst] in Hd2.
    destruct (is_empty d2) eqn:E2; [intros H; left; now apply Hplain|].
    intros [= <- <-]. right. exists d1, d2. repeat split; assumption.
  - intros H. left. apply Hplain.
    destruct c as [[] [] [] [] [] [] [] []]; try exact H; discriminate.
Qed.

(** What [[-+]?(?:\d*\.\d+|\d+)] matches is a numeral. *)
Lemma match_signed_shape (s t rest : string) :
  match_signed s = Some (t, rest) -> numeral t.
Proof.
  destruct s as [|c r]; [discriminate|]. cbn [match_signed].
  destruct (in_class "-+" c) eqn:Ec.
  - destruct (match_number r) as [[t' rest']|] eqn:Hm; [|discriminate].
    intros [= <- <-].
    cbn [in_class] in Ec. rewrite orb_false_r in Ec.
    apply orb_true_iff in Ec.
    destruct Ec as [Ec | Ec]; apply Ascii.eqb_eq in Ec; subst c.
    + destruct (match_number_shape r t' rest' Hm)
        as [Hd | (d1 & d2 & -> & Hd1 & Hd2)].
      * apply (numeral_int "-" t'); [cbn; tauto | exact Hd].
      * apply (numeral_frac "-" d1 d2); [cbn; tauto | exact Hd1 | exact Hd2].
    + destruct (match_number_shape r t' rest' Hm)
        as [Hd | (d1 & d2 & -> & Hd1 & Hd2)].
      * apply (numeral_int "+" t'); [cbn; tauto | exact Hd].
      * apply (numeral_frac "+" d1 d2); [cbn; tauto | exact Hd1 | exact Hd2].
  - intros Hm. rewrite <- (append_nil_l t).
    destruct (match_number_shape _ t rest Hm)
      as [Hd | (d1 & d2 & -> & Hd1 & Hd2)].
    + apply (numeral_int "" t); [cbn; tauto | exact Hd].
    + apply (numeral_frac "" d1 d2); [cbn; tauto | exact Hd1 | exact Hd2].
Qed.

Lemma findall_words_shape (cls : string) (s : string) :
  forall skip, Forall (word_of cls) (findall_words cls skip s).
Proof.
  induction s as [|c r IH]; intros skip; [constructor|].
  cbn [findall_words]. destruct skip as [|k]; [|apply IH].
  destruct (match_word cls (String c r)) as [[groups rest]|] eqn:Hm; [|apply IH].
  constructor; [|apply IH].
  revert Hm. cbn [match_word].
  destruct (in_class cls c) eqn:Hc; [|discriminate].
  destruct (match_signed (snd (span is_space r))) as [[t rest']|] eqn:Hs;
    [|discriminate].
  intros [= <- <-]. split.
  - exists c. now split.
  - cbn [snd]. apply numeral_is_number. exact (match_signed_shape _ _ _ Hs).
Qed.

Lemma fill_complete (d : ijk) : complete (_fill_missing_ijk d) = true.
Proof.
  unfold complete, _fill_missing_ijk, has_key. cbn [fold_left].
  unfold has_key.
  repeat (case_match; simplify_map_eq); try done.
Qed.

Lemma close_triple_complete (dyn : list ijk) (temp : ijk) :
  Forall (fun g => complete g = true) dyn ->
  Forall (fun g => complete g = true) (close_triple dyn temp).
Proof.
  intros H. unfold close_triple.
  destruct (negb (_is_zero_set (_fill_missing_ijk temp))); [|exact H].
  apply Forall_app. split; [exact H|].
  constructor; [apply fill_complete | constructor].
Qed.

Lemma class_cases (k : ascii) :
  in_class "RZSIJKT" k = true ->
  In k ["R"; "Z"; "S"; "I"; "J"; "K"; "T"]%char.
Proof.
  cbn [in_class In]. rewrite !orb_true_iff, !Ascii.eqb_eq.
  intuition (subst; auto 10 || discriminate).
Qed.

Lemma strip_letter (k : ascii) :
  is_space k = false -> strip (String k "") = String k "".
Proof.
  intros H. unfold strip, lstrip. cbn [span]. rewrite H. cbn [snd rstrip].
  now rewrite H.
Qed.

Lemma g66_token_step (st : params * list ijk * ijk) (m : string * string) :
  word_of "RZSIJKT" m -> g66_inv st ->
  exists st', g66_token st m = Ok st' /\ g66_inv st'.
Proof.
  destruct st as [[sp dyn] temp]. destruct m as [key val_str].
  intros [(k & Hk & Hcls) Hnum] (HF & HQ & Hdyn). cbn [fst snd] in Hk, Hnum.
  subst key. pose proof (is_number_nonempty _ Hnum) as Hne.
  destruct Hnum as [q Hq]. unfold g66_token.
  apply class_cases in Hcls. cbn [In] in Hcls.
  destruct Hcls as [<-|[<-|[<-|[<-|[<-|[<-|[<-|[]]]]]]]].
  all: rewrite strip_letter by reflexivity.
  all: cbn [is_empty orb]; rewrite Hne, Hq; cbn [mbind result_bind].
  all: repeat match goal with
       | |- context [key_in ?k ?l] =>
         let b := eval vm_compute in (key_in k l) in
         change (key_in k l) with b
       end; cbn iota.
  all: try (eexists; split; [reflexivity|]; unfold g66_inv;
            rewrite !lookup_insert_ne by done; now repeat split).
  all: match goal with |- context [has_key ?d ?k] => destruct (has_key d k) end;
    eexists; (split; [reflexivity|]); unfold g66_inv; repeat split;
    try assumption; now apply close_triple_complete.
Qed.

Lemma g66_tokens_steps (matches : list (string * string)) :
  Forall (word_of "RZSIJKT") matches ->
  forall st, g66_inv st ->
  exists st', g66_tokens st matches = Ok st' /\ g66_inv st'.
Proof.
  induction 1 as [|m matches Hm _ IH]; intros st Hst.
  - exists st. now split.
  - cbn [g66_tokens].
    destruct (g66_token_step st m Hm Hst) as (st1 & -> & Hst1).
    cbn [mbind result_bind]. now apply IH.
Qed.

Lemma parse_g66_line_ok (self : parser) (line_index : nat) (line : string)
    (tool_id : string) (spindle_rpm spindle_line : Z) :
  exists td,
    _parse_g66_line self line_index line tool_id spindle_rpm spindle_line
    = Ok (set_tools_data self (tools_data self ++ [td])%list)
    /\ get_none (static_params td) "F" = None
    /\ get_none (static_params td) "Q" = None
    /\ Forall (fun g => complete g = true) (dynamic_params td).
Proof.
  unfold _parse_g66_line, g66_extract.
  destruct (g66_tokens_steps _ (findall_words_shape "RZSIJKT" line 0)
              (g66_static0, [], ∅)) as ([[sp dyn] temp] & -> & HF & HQ & Hdyn).
  { repeat split. constructor. }
  cbn [mbind result_bind]. eexists. split; [reflexivity|].
  cbn [static_params dynamic_params]. unfold get_none. rewrite HF, HQ.
  repeat split.
  destruct (nonempty temp); [now apply close_triple_complete | exact Hdyn].
Qed.

(** X7. [_parse_g66_line] raises on no line whatever: every text its
    regular expression captures is one [float] accepts.  It appends exactly
    one record; the record's F and Q stay [None], the expression reading no
    such word; and every group of its [dynamic_params] carries the three
    keys I, J and K, a missing member having been filled in. *)
Theorem parse_g66_line_total (self : parser) (line_index : nat) (line : string)
    (tool_id : string) (spindle_rpm spindle_line : Z) :
  exists td,
    _parse_g66_line self line_index line tool_id spindle_rpm spindle_line
    = Ok (set_tools_data self (tools_data self ++ [td])%list)
    /\ get_none (static_params td) "F" = None
    /\ get_none (static_params td) "Q" = None
    /\ Forall (fun g => complete g = true) (dynamic_params td).
Proof.
  exact (parse_g66_line_ok self line_index line tool_id spindle_rpm spindle_line).
Qed.

End CaptureFacts.

(** ** The fixed cycle line *)

Module FixedFacts.
Import Num Sim Text Defaults Parser SimFacts ParserFacts Shape CaptureFacts.

Local Open Scope string_scope.





















End FixedFacts.

(** ** The stage list of the peck simulator *)

Module StageFacts.
Import Num Sim Stages NumFacts SimFacts.







Section Stages.
Variables r_point z_bottom : Q.
Variables use_ijk_mode : bool.
Variables peck_reduction min_peck : Q.


End Stages.






Section Reach.
Variables r_point z_bottom : Q.
Variables peck_reduction min_peck : Q.
Hypothesis min_peck_large : eps <= min_peck.


End Reach.







End StageFacts.

(** ** Parsing and editing together *)

Module ComposeFacts.
Import Num Sim Text Parser Located NumFacts ParserFacts LocatedFacts.

Local Open Scope string_scope.

Lemma mixed_program_first :
  (match tools_data (parsed mixed_program) !! 0%nat with
   | Some _ => true
   | None => false
   end) = true.
Proof. vm_compute. reflexivity. Qed.

Lemma mixed_program_rewritten :
  (match rewritten mixed_program 0 with Some _ => true | None => false end) = true.
Proof. vm_compute. reflexivity. Qed.

Lemma rewritten_inv (lines : list string) (i : nat) (p p' p'' : parser) :
  rewritten lines i = Some (p, p', p'') ->
  exists td,
    parse_file lines = Ok p
    /\ tools_data p !! i = Some td
    /\ update_g66_line p (Z.of_nat i) (static_params td) (dynamic_params td)
       = Ok (true, p')
    /\ parse_file (nc_lines p') = Ok p''.
Proof.
  unfold rewritten.
  destruct (parse_file lines) as [q|]; [|discriminate].
  destruct (tools_data q !! i) as [td|] eqn:Htd; [|discriminate].
  destruct (update_g66_line q (Z.of_nat i) (static_params td) (dynamic_params td))
    as [[[] q']|] eqn:Hu; try discriminate.
  destruct (parse_file (nc_lines q')) as [q''|] eqn:Hq; [|discriminate].
  intros [= <- <- <-]. exists td. now repeat split.
Qed.

(** X13. After [parse_file] the records can be edited.  For every record
    index of the returned parser, [update_g66_line] with any new parameters
    returns [True] (the record's line is a line of the text, so no index
    error), and [update_spindle_speed] with a positive speed returns [True]
    exactly when the record has a spindle line, that is when its rpm_line
    is not -1. *)
Theorem update_after_parse (lines : list string) (p : parser) (i : nat)
    (td : tool_data) (new_static : params) (new_dynamic_list : list ijk)
    (new_rpm : Q) :
  parse_file lines = Ok p ->
  tools_data p !! i = Some td ->
  (exists p', update_g66_line p (Z.of_nat i) new_static new_dynamic_list
              = Ok (true, p'))
  /\ (0 < new_rpm ->
      fst (update_spindle_speed p (Z.of_nat i) new_rpm)
      = negb (rpm_line td =? -1)%Z).
Proof.
  intros Hp Htd.
  destruct (parse_file_inv lines p Hp) as (Htext & Hrec & _).
  pose proof (lookup_lt_Some _ _ _ Htd) as Hlt.
  destruct (proj1 (List.Forall_forall _ _) Hrec td) as (Hidx & _ & Hsrc & _).
  { apply list_elem_of_In. eapply list_elem_of_lookup_2. exact Htd. }
  assert (H1 : ((Z.of_nat i <? 0)%Z
                || (Z.of_nat (length (tools_data p)) <=? Z.of_nat i)%Z) = false).
  { apply orb_false_iff. split; [apply Z.ltb_ge | apply Z.leb_gt]; lia. }
  split.
  - unfold update_g66_line. rewrite H1, Nat2Z.id, Htd, Htext.
    assert (H2 : (length lines <=? line_index td)%nat = false)
      by (apply Nat.leb_gt; exact Hidx).
    rewrite H2. now eexists.
  - intros Hrpm. unfold update_spindle_speed. rewrite H1, Nat2Z.id, Htd, Htext.
    apply Qleb_gt in Hrpm. rewrite Hrpm.
    destruct Hsrc as [(Hl & _) | (line & digits & Hr & Hline & _)].
    + rewrite Hl. reflexivity.
    + assert (H2 : ((rpm_line td <? 0)%Z
                    || (Z.of_nat (length lines) <=? rpm_line td)%Z) = false).
      { apply orb_false_iff. split; [apply Z.ltb_ge | apply Z.leb_gt]; lia. }
      rewrite H2, Hline. cbn [fst].
      destruct (rpm_line td =? -1)%Z eqn:E; [|reflexivity].
      apply Z.eqb_eq in E. lia.
Qed.

Lemma update_after_parse_witness :
  exists td,
    tools_data (parsed mixed_program) !! 0%nat = Some td
    /\ (exists p', update_g66_line (parsed mixed_program) (Z.of_nat 0)
                                  (static_params td) []
                  = Ok (true, p'))
    /\ (0 < 1500 ->
        fst (update_spindle_speed (parsed mixed_program) (Z.of_nat 0) 1500)
        = negb (rpm_line td =? -1)%Z).
Proof.
  destruct (tools_data (parsed mixed_program) !! 0%nat) as [td|] eqn:Htd.
  - exists td. split; [reflexivity|].
    exact (update_after_parse mixed_program (parsed mixed_program) 0 td
             (static_params td) [] 1500
             (returns_parsed _ mixed_program_returns) Htd).
  - exfalso. pose proof mixed_program_first as H. rewrite Htd in H. discriminate H.
Defined.

Lemma contains_prefix (sub rest : string) : contains sub (sub ++ rest) = true.
Proof.
  assert (H : String.prefix sub (sub ++ rest) = true).
  { induction sub as [|c sub IH]; [now destruct rest|].
    rewrite append_cons. cbn [String.prefix].
    destruct (ascii_dec c c) as [_|Hne]; [exact IH | contradiction]. }
  destruct (sub ++ rest); cbn [contains]; now rewrite H.
Qed.

Lemma contains_later (sub : string) (c : ascii) (s : string) :
  contains sub s = true -> contains sub (String c s) = true.
Proof. intros H. cbn [contains]. rewrite H. apply orb_true_r. Qed.

Lemma join_head (p : string) (parts : list string) :
  exists rest, join " " (p :: parts) = p ++ rest.
Proof.
  destruct parts as [|q parts].
  - exists "". cbn [join]. now rewrite append_nil_r.
  - exists (" " ++ join " " (q :: parts)). reflexivity.
Qed.

(** The line that [update_g66_line] writes for a record that is not a
    G83 record carries both macro markers. *)
Lemma rebuild_line_macro (td : tool_data) (new_static : params)
    (new_dynamic_list : list ijk) :
  String.eqb (cycle_type td) "G83" = false ->
  is_macro_cycle_line (rebuild_line td new_static new_dynamic_list) = true.
Proof.
  intros Hty. unfold rebuild_line, is_macro_cycle_line. rewrite Hty. cbn [app].
  match goal with
  | |- context [join " " ("G66 P9131" :: ?parts)] =>
    destruct (join_head "G66 P9131" parts) as [rest ->]
  end.
  rewrite append_assoc.
  assert (H66 : contains "G66" ("G66 P9131" ++ rest ++ String "010" "") = true)
    by apply (contains_prefix "G66" (" P9131" ++ rest ++ String "010" "")).
  assert (H91 : contains "P9131" ("G66 P9131" ++ rest ++ String "010" "") = true).
  { change ("G66 P9131" ++ rest ++ String "010" "")
      with (String "G" (String "6" (String "6" (String " "
             ("P9131" ++ rest ++ String "010" ""))))).
    do 4 apply contains_later. apply contains_prefix. }
  now rewrite H66, H91.
Qed.

(** The line that [update_g66_line] writes is a cycle line again. *)
Lemma rebuild_line_cycle (td : tool_data) (new_static : params)
    (new_dynamic_list : list ijk) :
  is_cycle_line (rebuild_line td new_static new_dynamic_list) = true.
Proof.
  unfold is_cycle_line.
  destruct (String.eqb (cycle_type td) "G83") eqn:Hty.
  - unfold rebuild_line. rewrite Hty.
    destruct (default (None, None) (original_xy td)) as [x y].
    cbn [app].
    match goal with
    | |- context [join " " ("G83" :: ?parts)] =>
      destruct (join_head "G83" parts) as [rest ->]
    end.
    rewrite append_assoc, contains_prefix. apply orb_true_r.
  - now rewrite rebuild_line_macro.
Qed.

Lemma cycle_lines_insert (lines : list string) :
  forall (idx n : nat) (old new : string),
    lines !! n = Some old -> is_cycle_line old = is_cycle_line new ->
    cycle_lines idx (<[n := new]> lines) = cycle_lines idx lines.
Proof.
  induction lines as [|line rest IH]; intros idx n old new Hl Hc; [discriminate|].
  destruct n as [|n].
  - cbn in Hl. injection Hl as ->. cbn [cycle_lines]. now rewrite Hc.
  - cbn in Hl. cbn [cycle_lines].
    change (<[S n := new]> (line :: rest)) with (line :: <[n := new]> rest).
    cbn [cycle_lines]. now rewrite (IH (S idx) n old new Hl Hc).
Qed.

(** X14. Parsing, rewriting a record with [update_g66_line] and parsing
    the rewritten text again finds the cycles on the same lines: when the
    second parse returns, its records have the line indexes of the first
    parse, in the same order, as have the records kept in memory by the
    update; and the record rewritten from a G66 record is a G66 record
    again. *)
Theorem reparse_keeps_record_lines (lines : list string) (p p' p'' : parser)
    (i : Z) (new_static : params) (new_dynamic_list : list ijk) :
  parse_file lines = Ok p ->
  update_g66_line p i new_static new_dynamic_list = Ok (true, p') ->
  parse_file (nc_lines p') = Ok p'' ->
  map line_index (tools_data p'') = map line_index (tools_data p)
  /\ map line_index (tools_data p') = map line_index (tools_data p)
  /\ (forall td td'',
        tools_data p !! Z.to_nat i = Some td ->
        tools_data p'' !! Z.to_nat i = Some td'' ->
        cycle_type td = "G66" -> cycle_type td'' = "G66").
Proof.
  intros Hp Hu Hp''.
  destruct (parse_file_inv lines p Hp) as (Htext & Hrec & _).
  destruct (parse_file_inv _ p'' Hp'') as (_ & Hrec'' & _).
  assert (Hidx : forall q ls, parse_file ls = Ok q ->
                   map line_index (tools_data q) = cycle_lines 0 ls).
  { intros q ls. unfold parse_file.
    destruct (scan _ 0 ls) as [st|e] eqn:Hs; [|discriminate].
    cbn [mbind result_bind]. intros [= <-].
    now rewrite (scan_indices _ _ _ _ Hs). }
  revert Hu. unfold update_g66_line.
  destruct ((i <? 0)%Z || (Z.of_nat (length (tools_data p)) <=? i)%Z);
    [discriminate|].
  destruct (tools_data p !! Z.to_nat i) as [td|] eqn:Htd; [|discriminate].
  destruct (length (nc_lines p) <=? line_index td)%nat eqn:Hlen; [discriminate|].
  apply Nat.leb_gt in Hlen.
  intros [= <-]. cbn [nc_lines tools_data] in *.
  destruct (proj1 (List.Forall_forall _ _) Hrec td) as (_ & (line & Hl & Hk) & _).
  { apply list_elem_of_In. eapply list_elem_of_lookup_2. exact Htd. }
  assert (Hsame : map line_index (tools_data p'') = map line_index (tools_data p)).
  { rewrite (Hidx _ _ Hp''), (Hidx _ _ Hp), Htext.
    apply (cycle_lines_insert lines 0 _ line); [exact Hl|].
    rewrite rebuild_line_cycle. exact (cycle_kind _ _ Hk). }
  split; [exact Hsame|]. split.
  - rewrite list_fmap_insert. cbn [line_index].
    apply list_insert_id. rewrite list_lookup_fmap, Htd. reflexivity.
  - intros td0 td'' [= <-] Htd'' Hty.
    assert (Hli : line_index td'' = line_index td).
    { apply (f_equal (fun l => l !! Z.to_nat i)) in Hsame.
      rewrite !list_lookup_fmap, Htd, Htd'' in Hsame. now injection Hsame. }
    destruct (proj1 (List.Forall_forall _ _) Hrec'' td'')
      as (_ & (line'' & Hl'' & Hk'') & _).
    { apply list_elem_of_In. eapply list_elem_of_lookup_2. exact Htd''. }
    rewrite Hli, list_lookup_insert_eq in Hl'' by exact Hlen.
    injection Hl'' as <-.
    rewrite rebuild_line_macro in Hk'' by (now rewrite Hty).
    destruct Hk'' as [[H _] | (_ & H & _)]; [exact H | discriminate].
Qed.

Lemma reparse_keeps_record_lines_witness :
  exists p p' p'' new_static new_dynamic_list,
    parse_file mixed_program = Ok p
    /\ update_g66_line p (Z.of_nat 0) new_static new_dynamic_list = Ok (true, p')
    /\ parse_file (nc_lines p') = Ok p''
    /\ map line_index (tools_data p'') = map line_index (tools_data p)
    /\ map line_index (tools_data p') = map line_index (tools_data p)
    /\ (forall td td'',
          tools_data p !! Z.to_nat (Z.of_nat 0) = Some td ->
          tools_data p'' !! Z.to_nat (Z.of_nat 0) = Some td'' ->
          cycle_type td = "G66" -> cycle_type td'' = "G66").
Proof.
  destruct (rewritten mixed_program 0) as [[[p p'] p'']|] eqn:E.
  - destruct (rewritten_inv _ _ _ _ _ E) as (td & Hp & Htd & Hu & Hp'').
    exists p, p', p'', (static_params td), (dynamic_params td).
    split; [exact Hp|]. split; [exact Hu|]. split; [exact Hp''|].
    exact (reparse_keeps_record_lines mixed_program p p' p'' (Z.of_nat 0)
             (static_params td) (dynamic_params td) Hp Hu Hp'').
  - exfalso. pose proof mixed_program_rewritten as H. rewrite E in H.
    discriminate H.
Defined.

End ComposeFacts.

(** ** Writing and reading the spindle speed *)

From Stdlib Require Import DecimalPos.

Module SpindleFacts.
Import Num Text Parser Located NumFacts ParserFacts CaptureFacts.

Local Open Scope string_scope.

Lemma test_program_rpm_line :
  rpm_line <$> tools_data (parsed test_program) !! 0%nat = Some 3%Z.
Proof. vm_compute. reflexivity. Qed.

Lemma test_program_spindle_line :
  nc_lines (parsed test_program) !! Z.to_nat 3
  = Some ("G0 G90 G54 X0 Y0 M03 S8000" ++ String "010" "").
Proof. vm_compute. reflexivity. Qed.

Lemma digits_value_acc (d : Decimal.uint) :
  forall acc : positive,
    digits_value (N.pos acc) (NilEmpty.string_of_uint d)
    = N.pos (Pos.of_uint_acc d acc).
Proof.
  induction d; intros acc;
    cbn [NilEmpty.string_of_uint digits_value Pos.of_uint_acc];
    [reflexivity | rewrite <- IHd; f_equal; cbn; lia ..].
Qed.

Lemma digits_value_uint (d : Decimal.uint) :
  digits_value 0 (NilEmpty.string_of_uint d) = Pos.of_uint d.
Proof.
  induction d; cbn [NilEmpty.string_of_uint digits_value Pos.of_uint];
    [reflexivity | exact IHd | apply digits_value_acc ..].
Qed.

Lemma all_digits_uint (d : Decimal.uint) :
  all_digits (NilEmpty.string_of_uint d) = true.
Proof.
  unfold all_digits.
  induction d; cbn [NilEmpty.string_of_uint]; [reflexivity | rewrite span_cons ..];
    exact IHd.
Qed.

(** [int(str(n))] is [n] for a natural number [n]. *)
Lemma int_of_string_of_Z (n : Z) :
  (0 <= n)%Z ->
  digits (string_of_Z n) /\ int_of_string (string_of_Z n) = Ok n.
Proof.
  intros Hn. destruct n as [|p|p]; [now repeat split | | lia].
  unfold string_of_Z, int_of_string. cbn [Z.to_int NilZero.string_of_int].
  pose proof (Unsigned.of_to p) as Hp.
  assert (Hs : NilZero.string_of_uint (Pos.to_uint p)
               = NilEmpty.string_of_uint (Pos.to_uint p)
               /\ is_empty (NilEmpty.string_of_uint (Pos.to_uint p)) = false).
  { destruct (Pos.to_uint p); [discriminate | now split ..]. }
  destruct Hs as [-> Hne]. unfold digits.
  rewrite Hne, all_digits_uint, digits_value_uint, Hp. now repeat split.
Qed.

Lemma span_rest_stops (s : string) : no_digit_ahead (snd (span is_digit s)).
Proof.
  induction s as [|c r IH]; [exact I|].
  rewrite span_cons. destruct (is_digit c) eqn:E; [exact IH | exact E].
Qed.

Lemma span_app (f : ascii -> bool) (s : string) :
  s = fst (span f s) ++ snd (span f s).
Proof.
  induction s as [|c r IH]; [reflexivity|].
  rewrite span_cons. destruct (f c); [|reflexivity].
  cbn [fst snd]. now rewrite append_cons, <- IH.
Qed.

Lemma sub_digits_once_cons (c c' : ascii) (repl r : string) :
  sub_digits_once c repl (String c' r)
  = if Ascii.eqb c' c && negb (is_empty (fst (span is_digit r)))
    then repl ++ snd (span is_digit r)
    else String c' (sub_digits_once c repl r).
Proof. cbn [sub_digits_once]. now destruct (span is_digit r). Qed.

(** The first character of a rewritten text is no digit when the first
    character of the text is none. *)
Lemma sub_no_digit_ahead (c : ascii) (d r : string) :
  is_digit c = false -> no_digit_ahead r ->
  no_digit_ahead (sub_digits_once c (String c d) r).
Proof.
  intros Hc Hr. destruct r as [|c' r]; [exact I|].
  rewrite sub_digits_once_cons.
  destruct (Ascii.eqb c' c && negb (is_empty (fst (span is_digit r))));
    [exact Hc | exact Hr].
Qed.

Lemma span_empty (r : string) :
  no_digit_ahead r -> fst (span is_digit r) = "".
Proof.
  destruct r as [|c r]; [reflexivity|]. cbn [no_digit_ahead]. intros H.
  now rewrite span_cons, H.
Qed.

Lemma empty_no_digit_ahead (r : string) :
  is_empty (fst (span is_digit r)) = true -> no_digit_ahead r.
Proof.
  destruct r as [|c r]; [intros; exact I|]. rewrite span_cons.
  cbn [no_digit_ahead]. now destruct (is_digit c).
Qed.

(** Writing then reading: the leftmost [c<digits>] of the rewritten text
    is the one written. *)
Lemma search_sub (c : ascii) (d s : string) :
  is_digit c = false -> digits d ->
  (exists d0, search_digits c s = Some d0) ->
  search_digits c (sub_digits_once c (String c d) s) = Some d.
Proof.
  intros Hc [Hne Hd]. induction s as [|c' r IH]; intros [d0 Hs]; [discriminate|].
  rewrite sub_digits_once_cons. cbn [search_digits] in Hs.
  destruct (Ascii.eqb c' c && negb (is_empty (fst (span is_digit r)))) eqn:E.
  - rewrite append_cons. cbn [search_digits].
    rewrite (span_digits_app d _ Hd (span_rest_stops r)). cbn [fst].
    now rewrite Ascii.eqb_refl, Hne.
  - cbn [search_digits].
    assert (E' : Ascii.eqb c' c
                 && negb (is_empty (fst (span is_digit
                                           (sub_digits_once c (String c d) r))))
                 = false).
    { apply andb_false_iff in E. destruct E as [E | E]; [now rewrite E|].
      apply negb_false_iff in E. apply empty_no_digit_ahead in E.
      rewrite (span_empty _ (sub_no_digit_ahead c d r Hc E)).
      apply andb_false_r. }
    rewrite E'. apply IH. now exists d0.
Qed.

(** A text without the letter [c] starts the rewritten text exactly when
    it starts the text. *)
Lemma prefix_sub (c : ascii) (d : string) (w : string) :
  in_class w c = false ->
  forall r, String.prefix w (sub_digits_once c (String c d) r) = String.prefix w r.
Proof.
  induction w as [|w0 w IH]; intros Hw r; [now destruct r, (sub_digits_once _ _ _)|].
  cbn [in_class] in Hw. apply orb_false_iff in Hw. destruct Hw as [Hw0 Hw].
  destruct r as [|c' r]; [reflexivity|].
  rewrite sub_digits_once_cons.
  destruct (Ascii.eqb c' c && negb (is_empty (fst (span is_digit r)))) eqn:E.
  - apply andb_true_iff in E. destruct E as [E _]. apply Ascii.eqb_eq in E.
    subst c'. rewrite append_cons. cbn [String.prefix].
    destruct (ascii_dec w0 c) as [->|_]; [|reflexivity].
    now rewrite Ascii.eqb_refl in Hw0.
  - cbn [String.prefix]. destruct (ascii_dec w0 c'); [now apply IH | reflexivity].
Qed.

Lemma contains_digits (sub d rest : string) (g : ascii) (tail : string) :
  sub = String g tail -> is_digit g = false -> all_digits d = true ->
  contains sub (d ++ rest) = contains sub rest.
Proof.
  intros -> Hg. induction d as [|c d IH]; intros Hd; [reflexivity|].
  apply all_digits_cons in Hd. destruct Hd as [Hc Hd].
  rewrite append_cons. cbn [contains String.prefix].
  destruct (ascii_dec g c) as [->|_]; [congruence|]. now apply IH.
Qed.

(** Rewriting the number after [c] neither makes nor removes an
    occurrence of a text that starts with another letter and has no [c]. *)
Lemma contains_sub (c : ascii) (d : string) (g : ascii) (tail : string) (s : string) :
  is_digit g = false -> in_class (String g tail) c = false ->
  all_digits d = true ->
  contains (String g tail) (sub_digits_once c (String c d) s)
  = contains (String g tail) s.
Proof.
  intros Hg Hcls Hd. induction s as [|c' r IH]; [reflexivity|].
  rewrite sub_digits_once_cons.
  destruct (Ascii.eqb c' c && negb (is_empty (fst (span is_digit r)))) eqn:E.
  - apply andb_true_iff in E. destruct E as [E _]. apply Ascii.eqb_eq in E.
    subst c'. rewrite append_cons.
    assert (Hgc : g <> c).
    { intros ->. cbn [in_class] in Hcls. now rewrite Ascii.eqb_refl in Hcls. }
    cbn [contains String.prefix].
    destruct (ascii_dec g c) as [->|_]; [contradiction|]. cbn [orb].
    rewrite (contains_digits _ d _ g tail eq_refl Hg Hd).
    rewrite (span_app is_digit r) at 2.
    now rewrite (contains_digits _ _ _ g tail eq_refl Hg (span_all_digits r)).
  - cbn [contains]. rewrite IH. f_equal.
    cbn [String.prefix]. destruct (ascii_dec g c'); [|reflexivity].
    apply prefix_sub. cbn [in_class] in Hcls.
    apply orb_false_iff in Hcls. apply Hcls.
Qed.

Lemma int_of_float_nonneg (x : Q) : 0 < x -> (0 <= int_of_float x)%Z.
Proof.
  intros Hx. unfold int_of_float. apply Z.quot_pos; [|lia].
  unfold Qlt in Hx. cbn in Hx. lia.
Qed.

Lemma int_of_float_small (x : Q) : 0 < x -> x < 1 -> int_of_float x = 0%Z.
Proof.
  intros H0 H1. unfold int_of_float. apply Z.quot_small.
  unfold Qlt in H0, H1. cbn in H0, H1. lia.
Qed.

(** X15. What [update_spindle_speed] writes, [parse_file] reads back.
    On a line without G66 that carries an S followed by a digit, the text
    that [update_spindle_speed] puts in its place for a positive speed is
    tracked by the spindle tracking of [parse_file] as the speed
    [int(new_rpm)] on that line: the leftmost S followed by a digit of the
    rewritten line is the S just written, [int] reads the written digits
    back as the same number, and the rewriting brings no G66 into the
    line. *)
Theorem spindle_write_read (st : scan_state) (idx : nat) (line : string)
    (new_rpm : Q) :
  0 < new_rpm ->
  contains "G66" line = false ->
  (exists d0, search_digits "S" line = Some d0) ->
  track_spindle st idx
    (sub_digits_once "S" ("S" ++ string_of_Z (int_of_float new_rpm)) line)
  = Ok {| self := self st; current_tool := current_tool st;
          current_spindle_rpm := int_of_float new_rpm;
          current_spindle_line := Z.of_nat idx |}.
Proof.
  intros Hrpm Hg Hs.
  destruct (int_of_string_of_Z _ (int_of_float_nonneg _ Hrpm)) as [Hd Hint].
  rewrite append_cons, append_nil_l. unfold track_spindle.
  rewrite (contains_sub "S" _ "G" "66" line eq_refl eq_refl (proj2 Hd)), Hg.
  cbn [negb]. rewrite (search_sub "S" _ line eq_refl Hd Hs), Hint.
  reflexivity.
Qed.

Lemma spindle_write_read_witness :
  track_spindle scan_start 3
    (sub_digits_once "S" ("S" ++ string_of_Z (int_of_float 9000.5))
                     "G0 G90 G54 X0 Y0 M03 S8000")
  = Ok {| self := self scan_start; current_tool := current_tool scan_start;
          current_spindle_rpm := int_of_float 9000.5;
          current_spindle_line := Z.of_nat 3 |}.
Proof.
  apply (spindle_write_read scan_start 3 "G0 G90 G54 X0 Y0 M03 S8000" 9000.5).
  - reflexivity.
  - reflexivity.
  - exists "8000". reflexivity.
Defined.

(** X16. The guard of [update_spindle_speed] against a zero speed lets
    the speeds between 0 and 1 through: such an update is accepted, writes
    S0 in place of the leftmost S number of the spindle line, and stores
    the speed 0 in the record. *)
Theorem update_spindle_speed_stores_zero
    (self : parser) (data_index : Z) (new_rpm : Q) (tool_data : tool_data)
    (old_line : string) :
  (0 <= data_index)%Z ->
  tools_data self !! Z.to_nat data_index = Some tool_data ->
  0 < new_rpm -> new_rpm < 1 ->
  (0 <= rpm_line tool_data)%Z ->
  nc_lines self !! Z.to_nat (rpm_line tool_data) = Some old_line ->
  exists self',
    update_spindle_speed self data_index new_rpm = (true, self')
    /\ nc_lines self' !! Z.to_nat (rpm_line tool_data)
       = Some (sub_digits_once "S" "S0" old_line)
    /\ rpm <$> tools_data self' !! Z.to_nat data_index = Some 0%Z.
Proof.
  intros Hidx Hlook Hrpm Hsmall Hline Hold.
  pose proof (lookup_lt_Some _ _ _ Hlook) as Hlt.
  pose proof (lookup_lt_Some _ _ _ Hold) as Hlt'.
  unfold update_spindle_speed.
  assert (H1 : ((data_index <? 0)%Z
                || (Z.of_nat (length (tools_data self)) <=? data_index)%Z) = false).
  { apply orb_false_iff. split; [apply Z.ltb_ge | apply Z.leb_gt]; lia. }
  assert (H2 : ((rpm_line tool_data <? 0)%Z
                || (Z.of_nat (length (nc_lines self)) <=? rpm_line tool_data)%Z)
               = false).
  { apply orb_false_iff. split; [apply Z.ltb_ge | apply Z.leb_gt]; lia. }
  rewrite (int_of_float_small new_rpm Hrpm Hsmall).
  apply Qleb_gt in Hrpm.
  rewrite H1, Hrpm, Hlook, H2, Hold.
  eexists. split; [reflexivity|]. cbn [nc_lines tools_data].
  split; [now apply list_lookup_insert_eq|].
  rewrite list_lookup_insert_eq by exact Hlt. reflexivity.
Qed.

Lemma update_spindle_speed_stores_zero_witness :
  let self := parsed test_program in
  exists self',
    update_spindle_speed self 0 0.5 = (true, self')
    /\ nc_lines self' !! 3%nat
       = Some (sub_digits_once "S" "S0"
                 ("G0 G90 G54 X0 Y0 M03 S8000" ++ String "010" ""))
    /\ rpm <$> tools_data self' !! 0%nat = Some 0%Z.
Proof.
  intros self.
  destruct (tools_data self !! 0%nat) as [tool_data|] eqn:Hlook.
  - assert (Hline : rpm_line tool_data = 3%Z).
    { pose proof test_program_rpm_line as H. fold self in H.
      rewrite Hlook in H. now injection H. }
    pose proof (update_spindle_speed_stores_zero self 0 0.5 tool_data
                  ("G0 G90 G54 X0 Y0 M03 S8000" ++ String "010" "")) as H.
    rewrite Hline in H. apply H.
    + lia.
    + exact Hlook.
    + reflexivity.
    + reflexivity.
    + lia.
    + exact test_program_spindle_line.
  - exfalso. pose proof test_program_rpm_line as H. fold self in H.
    rewrite Hlook in H. discriminate H.
Defined.

End SpindleFacts.

(** ** The time estimate and what is derived from it *)

Module EfficiencyFacts.
Import Num Fmt Engine Efficiency NumFacts EngineFacts.

Lemma stage_minutes_nonneg (f r g cl : Q) (l : list ijk) (n : nat) :
  0 < f -> 0 < g -> 0 <= stage_minutes f r g cl l n.
Proof.
  intros Hf Hg. unfold stage_minutes.
  assert (Hdiv : forall a b, 0 < b -> 0 <= Qabs a / b).
  { intros a b Hb. apply Qle_shift_div_l; [exact Hb|].
    pose proof (Qabs_nonneg a). lra. }
  destruct n as [|n].
  - pose proof (Hdiv (geti (nth 0 l ∅) "I" 0) f Hf).
    pose proof (Hdiv (depth_after r l 1 - r) g Hg). lra.
  - pose proof (Hdiv (r - (depth_after r l (S n) + cl)) g Hg).
    pose proof (Hdiv (depth_after r l (S (S n)) - (depth_after r l (S n) + cl)) f Hf).
    pose proof (Hdiv (depth_after r l (S (S n)) - r) g Hg). lra.
Qed.

Lemma sum_minutes_nonneg (f r g cl : Q) (l : list ijk) (n : nat) :
  0 < f -> 0 < g -> 0 <= sum_minutes f r g cl l n.
Proof.
  intros Hf Hg. induction n as [|n IH]; cbn [sum_minutes]; [lra|].
  pose proof (stage_minutes_nonneg f r g cl l n Hf Hg). lra.
Qed.

(** The estimate in minutes, for a positive feedrate and a rapid speed
    other than zero. *)
Lemma calc_minutes (l : list ijk) (f r g cl : Q) (mode : bool) :
  0 < f -> ~ g == 0 ->
  exists t, calc_drilling_time l f r g mode cl = Ok (Minutes t)
            /\ t == spec_minutes l f r g cl.
Proof.
  intros HF Hg. unfold calc_drilling_time.
  pose proof HF as HF'. apply Qleb_gt in HF'. rewrite HF'.
  destruct (drilling_loop_spec f r g cl l HF Hg l [] 0 eq_refl)
    as (t & Ht & Hsum); [reflexivity|].
  exists t. split; [|exact Hsum].
  cbn [length] in Ht. change (depth_after r l 0) with r in Ht.
  destruct mode; [rewrite drilling_loop_mode|]; now rewrite Ht.
Qed.



(** X18. A feedrate of zero or less on either side is no error for
    [compare_efficiency]: with a rapid speed other than zero it returns,
    the side without feed has an infinite time, and the saving is 0. *)
Theorem compare_efficiency_no_feed (current_params initial_params : drill_params)
    (g0_speed : Q) :
  ~ g0_speed == 0 ->
  feedrate current_params <= 0 \/ feedrate initial_params <= 0 ->
  exists e,
    compare_efficiency current_params initial_params g0_speed = Ok e
    /\ save_pct e = 0
    /\ (feedrate current_params <= 0 -> curr_time e = Infinite)
    /\ (feedrate initial_params <= 0 -> init_time e = Infinite).
Proof.
  intros Hg Hfeed. unfold compare_efficiency.
  assert (Hcalc : forall l f r mode,
             (f <= 0 /\ calc_drilling_time l f r g0_speed mode 0.1 = Ok Infinite)
             \/ (0 < f /\ exists t, calc_drilling_time l f r g0_speed mode 0.1
                                    = Ok (Minutes t))).
  { intros l f r mode. destruct (Qlt_le_dec 0 f) as [Hf | Hf].
    - right. split; [exact Hf|].
      destruct (calc_minutes l f r g0_speed 0.1 mode Hf Hg) as (t & Ht & _).
      now exists t.
    - left. split; [exact Hf|]. unfold calc_drilling_time.
      apply Qleb_le in Hf. now rewrite Hf. }
  destruct (Hcalc (ijk_list current_params) (feedrate current_params)
              (r_point current_params) (is_ijk_mode current_params))
    as [[Hc ->] | [Hc [tc ->]]];
    destruct (Hcalc (ijk_list initial_params) (feedrate initial_params)
                (r_point initial_params) (is_ijk_mode initial_params))
      as [[Hi ->] | [Hi [ti ->]]];
    cbn [mbind result_bind]; try (destruct Hfeed; lra);
    eexists; (split; [reflexivity|]);
    cbn [save_pct curr_time init_time]; repeat split; intros; try reflexivity; lra.
Qed.

Lemma compare_efficiency_no_feed_witness :
  exists e,
    compare_efficiency idle_params slow_params 5000 = Ok e
    /\ save_pct e = 0
    /\ (feedrate idle_params <= 0 -> curr_time e = Infinite)
    /\ (feedrate slow_params <= 0 -> init_time e = Infinite).
Proof.
  apply (compare_efficiency_no_feed idle_params slow_params 5000).
  - intros H. discriminate H.
  - left. apply Qle_refl.
Defined.

Lemma depth_after_shift (r c : Q) (l : list ijk) (n : nat) :
  depth_after (r + c) l n == depth_after r l n + c.
Proof.
  unfold depth_after. generalize (firstn n l). clear l n. intros l.
  revert r. induction l as [|s l IH]; intros r; cbn [fold_left]; [reflexivity|].
  assert (H : r + c + geti s "I" 0 == r + geti s "I" 0 + c) by ring.
  transitivity (fold_left (fun z peck => z + geti peck "I" 0) l
                          (r + geti s "I" 0 + c)).
  - clear IH. generalize (r + c + geti s "I" 0) (r + geti s "I" 0 + c) H.
    induction l as [|s' l IHl]; intros a b Hab; cbn [fold_left]; [exact Hab|].
    apply IHl. now rewrite Hab.
  - apply IH.
Qed.

Lemma stage_minutes_shift (f r g cl c : Q) (l : list ijk) (n : nat) :
  stage_minutes f (r + c) g cl l n == stage_minutes f r g cl l n.
Proof.
  unfold stage_minutes.
  pose proof (depth_after_shift r c l n) as Hn.
  pose proof (depth_after_shift r c l (S n)) as HS.
  assert (H1 : Qabs (depth_after (r + c) l (S n) - (r + c))
               == Qabs (depth_after r l (S n) - r)).
  { apply Qabs_wd. rewrite HS. ring. }
  rewrite H1. destruct n as [|n]; [reflexivity|].
  assert (H2 : Qabs (r + c - (depth_after (r + c) l (S n) + cl))
               == Qabs (r - (depth_after r l (S n) + cl))).
  { apply Qabs_wd. rewrite Hn. ring. }
  assert (H3 : Qabs (depth_after (r + c) l (S (S n))
                     - (depth_after (r + c) l (S n) + cl))
               == Qabs (depth_after r l (S (S n)) - (depth_after r l (S n) + cl))).
  { apply Qabs_wd. rewrite Hn, HS. ring. }
  now rewrite H2, H3.
Qed.

Lemma sum_minutes_shift (f r g cl c : Q) (l : list ijk) (n : nat) :
  sum_minutes f (r + c) g cl l n == sum_minutes f r g cl l n.
Proof.
  induction n as [|n IH]; cbn [sum_minutes]; [reflexivity|].
  now rewrite IH, stage_minutes_shift.
Qed.

(** X19. The estimate of [calc_drilling_time] is relative to R: with a
    positive feedrate and a positive rapid speed, moving the R point by any
    amount leaves the time unchanged, and the time is never negative. *)
Theorem calc_drilling_time_relative (l : list ijk) (f r g cl c : Q) (mode : bool) :
  0 < f -> 0 < g ->
  exists t t',
    calc_drilling_time l f r g mode cl = Ok (Minutes t)
    /\ calc_drilling_time l f (r + c) g mode cl = Ok (Minutes t')
    /\ t' == t /\ 0 <= t.
Proof.
  intros Hf Hg. assert (Hg' : ~ g == 0) by lra.
  destruct (calc_minutes l f r g cl mode Hf Hg') as (t & Ht & Hs).
  destruct (calc_minutes l f (r + c) g cl mode Hf Hg') as (t' & Ht' & Hs').
  exists t, t'. split; [exact Ht|]. split; [exact Ht'|]. split.
  - rewrite Hs, Hs'. apply sum_minutes_shift.
  - rewrite Hs. now apply sum_minutes_nonneg.
Qed.

Lemma calc_drilling_time_relative_witness :
  exists t t',
    calc_drilling_time (ijk_list slow_params) 100 0 5000 false 0.1 = Ok (Minutes t)
    /\ calc_drilling_time (ijk_list slow_params) 100 (0 + 25) 5000 false 0.1
       = Ok (Minutes t')
    /\ t' == t /\ 0 <= t.
Proof.
  apply (calc_drilling_time_relative (ijk_list slow_params) 100 0 5000 0.1 25 false);
    reflexivity.
Defined.

(** X20. With a positive feedrate and a rapid speed of zero,
    [calc_drilling_time] returns 0 for the empty stage list and raises
    [ZeroDivisionError] for every other one, at the retract of the first
    stage. *)
Theorem calc_drilling_time_zero_speed (f r g cl : Q) (mode : bool) :
  0 < f -> g == 0 ->
  calc_drilling_time [] f r g mode cl = Ok (Minutes 0)
  /\ forall (peck : ijk) (rest : list ijk),
       calc_drilling_time (peck :: rest) f r g mode cl = Raise ZeroDivisionError.
Proof.
  intros HF Hg. unfold calc_drilling_time.
  assert (HF' : ~ f == 0) by lra.
  apply Qleb_gt in HF. rewrite HF. split; [reflexivity|].
  intros peck rest.
  destruct mode; cbn [drilling_loop Nat.eqb];
    rewrite (div_nonzero _ f HF'); cbn [mbind result_bind];
    rewrite (div_zero _ g Hg); reflexivity.
Qed.

Lemma calc_drilling_time_zero_speed_witness :
  calc_drilling_time [] 100 0 0 false 0.1 = Ok (Minutes 0)
  /\ forall (peck : ijk) (rest : list ijk),
       calc_drilling_time (peck :: rest) 100 0 0 false 0.1
       = Raise ZeroDivisionError.
Proof.
  apply (calc_drilling_time_zero_speed 100 0 0 0.1 false); reflexivity.
Defined.

(** X21. [get_ld_sens_ijk] returns the diameter times three factors,
    rounded to three places.  The I factor lies in [0.4, 1.2], the J factor
    in [0.08, 0.18] and the K factor in [0.15, 0.25]: the cap of the ratio
    at 10 keeps J and K above the lower limits 0.04 and 0.08 of their
    clamps, which are never reached.  From a ratio of 10 on the factors
    stay at 0.4, 0.08 and 0.15; up to a ratio of 0 they are 1.2, 0.18 and
    0.25; in between they fall linearly. *)
Theorem get_ld_sens_ijk_factors (diameter ld_ratio : Q) :
  exists i_factor j_factor k_factor,
    get_ld_sens_ijk diameter ld_ratio
    = (round3 (diameter * i_factor), round3 (diameter * j_factor),
       round3 (diameter * k_factor))
    /\ 0.4 <= i_factor <= 1.2
    /\ 0.08 <= j_factor <= 0.18
    /\ 0.15 <= k_factor <= 0.25
    /\ (10 <= ld_ratio ->
        i_factor == 0.4 /\ j_factor == 0.08 /\ k_factor == 0.15)
    /\ (ld_ratio <= 0 ->
        i_factor == 1.2 /\ j_factor == 0.18 /\ k_factor == 0.25)
    /\ (0 <= ld_ratio <= 10 ->
        i_factor == 1.2 - 0.08 * ld_ratio
        /\ j_factor == 0.18 - 0.01 * ld_ratio
        /\ k_factor == 0.25 - 0.01 * ld_ratio).
Proof.
  unfold get_ld_sens_ijk. cbv zeta. eexists _, _, _. split; [reflexivity|].
  unfold py_max, py_min.
  repeat match goal with
         | |- context [Qltb ?a ?b] =>
           lazymatch a with context [if _ then _ else _] => fail | _ => idtac end;
           lazymatch b with context [if _ then _ else _] => fail | _ => idtac end;
           let E := fresh "E" in
           destruct (Qltb a b) eqn:E;
           [apply Qltb_lt in E | apply Qltb_ge in E]
         end;
    repeat split; intros; lra.
Qed.

End EfficiencyFacts.

(** ** Tool diameters *)

Module DiameterFacts.
Import Num Sim Text Parser Located Diameters NumFacts ParserFacts LocatedFacts.

Local Open Scope string_scope.

Lemma first_positive_pos (d_matches : list string) (v : Q) :
  first_positive d_matches = Some v -> 0 < v.
Proof.
  induction d_matches as [|d rest IH]; [discriminate|]. cbn [first_positive].
  destruct (float_of_string d) as [val|]; [|exact IH].
  destruct (Qltb 0 val) eqn:E; [|exact IH].
  intros [= <-]. now apply Qltb_lt.
Qed.

Lemma scan_lines_first (l : list string) :
  forall (m : nat) (line : string) (v : Q),
    l !! m = Some line -> line_diameter line = Some v ->
    (forall k line', (k < m)%nat -> l !! k = Some line' ->
                     line_diameter line' = None) ->
    scan_lines_for_diameter l = Some v.
Proof.
  unfold line_diameter.
  induction l as [|x l IH]; intros m line v Hm Hv Hno; [discriminate|].
  cbn [scan_lines_for_diameter]. destruct m as [|m].
  - cbn in Hm. injection Hm as ->. now rewrite Hv.
  - rewrite (Hno 0%nat x) by (lia || reflexivity).
    apply (IH m line v Hm Hv). intros k line' Hk Hl.
    apply (Hno (S k) line'); [lia | exact Hl].
Qed.

(** X22. [_scan_for_diameter] takes the first positive D number of its
    window, which opens ten lines before the tool change: when a line of
    the window has a positive D number and no earlier line of the window
    has one, that number is the result, whatever the later lines hold.  A D
    number on one of the ten lines before the tool change therefore wins
    over every D number on or after the tool change line. *)
Theorem scan_for_diameter_first (self : parser) (idx j : nat) (line : string)
    (v : Q) :
  (idx - 10 <= j < Nat.min (length (nc_lines self)) (idx + 11))%nat ->
  nc_lines self !! j = Some line ->
  line_diameter line = Some v ->
  (forall k line', (idx - 10 <= k < j)%nat -> nc_lines self !! k = Some line' ->
                   line_diameter line' = None) ->
  _scan_for_diameter self idx = Some v /\ 0 < v.
Proof.
  intros Hj Hline Hv Hno. split; [|exact (first_positive_pos _ _ Hv)].
  unfold _scan_for_diameter.
  apply (scan_lines_first _ (j - (idx - 10)) line v).
  - rewrite lookup_take_lt by lia. rewrite lookup_drop.
    replace (idx - 10 + (j - (idx - 10)))%nat with j by lia. exact Hline.
  - exact Hv.
  - intros k line' Hk. destruct (decide (k < Nat.min (length (nc_lines self)) (idx + 11) - (idx - 10))%nat) as [Hlt|Hge].
    + rewrite lookup_take_lt by exact Hlt. rewrite lookup_drop.
      apply Hno. lia.
    + lia.
Qed.

Lemma scan_for_diameter_first_witness :
  _scan_for_diameter two_tools 2 = Some 5.0 /\ 0 < 5.0.
Proof.
  apply (scan_for_diameter_first two_tools 2 0 "T1 M06 (D5.0)" 5.0).
  - cbn. lia.
  - reflexivity.
  - reflexivity.
  - intros k line' Hk. lia.
Defined.

Lemma scan_lines_pos (l : list string) (v : Q) :
  scan_lines_for_diameter l = Some v -> 0 < v.
Proof.
  induction l as [|x l IH]; [discriminate|]. cbn [scan_lines_for_diameter].
  destruct (first_positive (findall_diameters 0 x)) as [w|] eqn:E; [|exact IH].
  intros [= <-]. exact (first_positive_pos _ _ E).
Qed.

Lemma track_tool_diameters (st : scan_state) (idx : nat) (line : string) :
  diameters_inv (self st) -> diameters_inv (self (track_tool st idx line)).
Proof.
  intros [Hmap Hrec]. unfold track_tool.
  destruct (search_digits "T" line) as [found_id|]; [|now split].
  cbn [self]. destruct (_scan_for_diameter (self st) idx) as [dia|] eqn:E;
    [|now split].
  split; [|exact Hrec]. cbn [tool_diameters set_tool_diameters].
  apply map_Forall_insert_2; [|exact Hmap].
  exact (scan_lines_pos _ _ E).
Qed.

Lemma detect_cycle_diameters (st st' : scan_state) (idx : nat) (line : string) :
  diameters_inv (self st) -> detect_cycle st idx line = Ok st' ->
  diameters_inv (self st').
Proof.
  intros [Hmap Hrec]. unfold detect_cycle.
  destruct (contains "G66" line && contains "P9131" line).
  - unfold _parse_g66_line.
    destruct (g66_extract _) as [[sp dyn]|]; [|discriminate].
    cbn [mbind result_bind]. intros [= <-]. cbn [self].
    split; [exact Hmap|]. cbn [tools_data set_tools_data].
    apply Forall_app. split; [exact Hrec|]. constructor; [|constructor].
    unfold diameter_known. cbn [detected_diameter cycle_type].
    destruct (tool_diameters (self st) !! current_tool st) as [d|] eqn:E;
      [|reflexivity].
    left. exact (Hmap _ _ E).
  - destruct (contains "G83" line); [|now intros [= <-]].
    unfold _parse_fixed_cycle_line.
    destruct (fixed_tokens _ _) as [sp|]; [|discriminate].
    cbn [mbind result_bind].
    destruct (fixed_resolve _ _ _) as [[sp' mode]|]; [|discriminate].
    cbn [mbind result_bind].
    destruct (_g83_to_ijk _ _) as [l|]; [|discriminate].
    cbn [mbind result_bind]. intros [= <-]. cbn [self].
    split; [exact Hmap|]. cbn [tools_data set_tools_data].
    apply Forall_app. split; [exact Hrec|]. constructor; [|constructor].
    unfold diameter_known. cbn [detected_diameter cycle_type].
    destruct (tool_diameters (self st) !! current_tool st) as [d|] eqn:E; cbn.
    + left. exact (Hmap _ _ E).
    + right. now split.
Qed.

Lemma scan_diameters (lines : list string) :
  forall (st st' : scan_state) (idx : nat),
    diameters_inv (self st) -> scan st idx lines = Ok st' ->
    diameters_inv (self st').
Proof.
  induction lines as [|line rest IH]; intros st st' idx Hinv; cbn [scan].
  - now intros [= <-].
  - unfold scan_line at 1.
    destruct (track_spindle st idx line) as [st1|] eqn:Hs; [|discriminate].
    cbn [mbind result_bind].
    destruct (detect_cycle (track_tool st1 idx line) idx line) as [st2|] eqn:Hd;
      [|discriminate].
    cbn [mbind result_bind]. apply IH.
    assert (Hself : self st1 = self st).
    { revert Hs. unfold track_spindle.
      destruct (negb (contains "G66" line)); [|now intros [= <-]].
      destruct (search_digits "S" line) as [d|]; [|now intros [= <-]].
      destruct (int_of_string d); [|discriminate].
      cbn [mbind result_bind]. now intros [= <-]. }
    rewrite <- Hself in Hinv.
    exact (detect_cycle_diameters _ _ _ _ (track_tool_diameters st1 idx line Hinv)
             Hd).
Qed.

(** X23. After [parse_file] every diameter is usable as it stands: each
    entry of [tool_diameters] is positive, a G66 record has a positive
    [detected_diameter] or [None], and a G83 record has a positive
    [detected_diameter] or 0; no record carries a negative diameter. *)
Theorem parse_file_diameters (lines : list string) (p : parser) :
  parse_file lines = Ok p ->
  map_Forall (fun _ d => 0 < d) (tool_diameters p)
  /\ Forall diameter_known (tools_data p).
Proof.
  unfold parse_file.
  destruct (scan _ 0 lines) as [st|] eqn:Hs; [|discriminate].
  cbn [mbind result_bind]. intros [= <-].
  refine (scan_diameters _ _ _ _ _ Hs). cbn [self].
  split; [apply map_Forall_empty | constructor].
Qed.

Lemma parse_file_diameters_witness :
  map_Forall (fun _ d => 0 < d) (tool_diameters (parsed mixed_program))
  /\ Forall diameter_known (tools_data (parsed mixed_program)).
Proof.
  exact (parse_file_diameters _ _ (returns_parsed _ mixed_program_returns)).
Defined.

End DiameterFacts.

(** ** Risk index and strategy together *)

Module TierFacts.
Import Dri Tier DriFacts.

Local Open Scope R_scope.

Lemma select_strategy_monotone (x1 x2 : R) :
  x1 <= x2 ->
  (strategy_rank (select_strategy x1) <= strategy_rank (select_strategy x2))%nat.
Proof.
  intros H. unfold select_strategy.
  repeat (match goal with
          | |- context [Rlt_dec ?a ?b] => destruct (Rlt_dec a b)
          end); cbn; try lia; Lra.lra.
Qed.

Lemma calculate_dri_monotone (cfg : option config)
    (material_key coolant_mode tool_mat_key : string)
    (d1 depth1 d2 depth2 r_material r_coolant r_tool : R) :
  risk_factors material_key coolant_mode tool_mat_key cfg
  = (r_material, r_coolant, r_tool) ->
  0 < r_material -> 0 < r_coolant -> 0 < r_tool ->
  0 < d1 -> 0 < d2 -> 0 <= depth1 / d1 <= depth2 / d2 ->
  exists x1 x2,
    calculate_dri d1 depth1 material_key coolant_mode tool_mat_key cfg = Some x1
    /\ calculate_dri d2 depth2 material_key coolant_mode tool_mat_key cfg = Some x2
    /\ 1.2 * r_material * r_coolant * r_tool <= x1 <= x2.
Proof.
  intros Hf Hm Hc Ht Hd1 Hd2 [H0 Hle].
  destruct (pow14_nonneg (depth1 / d1) H0) as (p & Hp & Hp0).
  assert (Hx1 : calculate_dri d1 depth1 material_key coolant_mode tool_mat_key cfg
                = Some ((1.2 + p) * r_material * r_coolant * r_tool)).
  { unfold calculate_dri. destruct (Rle_dec d1 0) as [H|_]; [Lra.lra|].
    rewrite Hp, Hf. reflexivity. }
  assert (Hlow : 1.2 * r_material * r_coolant * r_tool
                 <= (1.2 + p) * r_material * r_coolant * r_tool).
  { repeat apply Rmult_le_compat_r; Lra.lra. }
  destruct (Rle_lt_or_eq_dec _ _ Hle) as [Hlt | Heq].
  - destruct (calculate_dri_increasing cfg material_key coolant_mode tool_mat_key
                d1 depth1 d2 depth2 r_material r_coolant r_tool Hf Hm Hc Ht Hd1 Hd2
                (conj H0 Hlt)) as (x1 & x2 & H1 & H2 & Hx).
    exists x1, x2. split; [exact H1|]. split; [exact H2|].
    rewrite Hx1 in H1. injection H1 as <-.
    split; [exact Hlow | Lra.lra].
  - exists ((1.2 + p) * r_material * r_coolant * r_tool),
           ((1.2 + p) * r_material * r_coolant * r_tool).
    split; [exact Hx1|]. split.
    + unfold calculate_dri. destruct (Rle_dec d2 0) as [H|_]; [Lra.lra|].
      rewrite <- Heq, Hp, Hf. reflexivity.
    + split; [exact Hlow | Lra.lra].
Qed.

(** X24. Risk index and strategy together: with positive factors, a hole
    whose depth-to-diameter ratio is no smaller gets a risk index that is
    no smaller, at least 1.2 times the three factors, and a strategy that
    is no lighter in the order DIRECT, Q_MODE, IJK_DYNAMIC, DEEP_PROTECT;
    and a diameter of zero or less gets the index 999 and with it
    DEEP_PROTECT, whatever the depth and the factors. *)
Theorem strategy_never_lighter :
  (forall (cfg : option config) (material_key coolant_mode tool_mat_key : string)
          (d1 depth1 d2 depth2 r_material r_coolant r_tool : R),
      risk_factors material_key coolant_mode tool_mat_key cfg
      = (r_material, r_coolant, r_tool) ->
      0 < r_material -> 0 < r_coolant -> 0 < r_tool ->
      0 < d1 -> 0 < d2 -> 0 <= depth1 / d1 <= depth2 / d2 ->
      exists x1 x2,
        calculate_dri d1 depth1 material_key coolant_mode tool_mat_key cfg = Some x1
        /\ calculate_dri d2 depth2 material_key coolant_mode tool_mat_key cfg = Some x2
        /\ 1.2 * r_material * r_coolant * r_tool <= x1 <= x2
        /\ (strategy_rank (select_strategy x1)
            <= strategy_rank (select_strategy x2))%nat)
  /\ (forall (diameter depth : R) (material_key coolant_mode tool_mat_key : string)
             (cfg : option config),
        diameter <= 0 ->
        exists x,
          calculate_dri diameter depth material_key coolant_mode tool_mat_key cfg
          = Some x
          /\ select_strategy x = "DEEP_PROTECT"%string).
Proof.
  split.
  - intros cfg material_key coolant_mode tool_mat_key d1 depth1 d2 depth2
           r_material r_coolant r_tool Hf Hm Hc Ht Hd1 Hd2 Hratio.
    destruct (calculate_dri_monotone cfg material_key coolant_mode tool_mat_key
                d1 depth1 d2 depth2 r_material r_coolant r_tool
                Hf Hm Hc Ht Hd1 Hd2 Hratio) as (x1 & x2 & H1 & H2 & Hx).
    exists x1, x2. repeat split; try assumption; try apply Hx.
    apply select_strategy_monotone. Lra.lra.
  - intros diameter depth material_key coolant_mode tool_mat_key cfg H.
    exists 999. unfold calculate_dri.
    destruct (Rle_dec diameter 0); [|Lra.lra].
    split; [reflexivity|]. apply select_strategy_tiers. Lra.lra.
Qed.

Lemma strategy_never_lighter_witness :
  (exists x1 x2,
      calculate_dri 1 5 "AL6061" "MQL" "CARBIDE" None = Some x1
      /\ calculate_dri 1 10 "AL6061" "MQL" "CARBIDE" None = Some x2
      /\ 1.2 * 1 * 1 * 1 <= x1 <= x2
      /\ (strategy_rank (select_strategy x1)
          <= strategy_rank (select_strategy x2))%nat)
  /\ (exists x,
        calculate_dri 0 10 "AL6061" "MQL" "CARBIDE" None = Some x
        /\ select_strategy x = "DEEP_PROTECT"%string).
Proof.
  destruct strategy_never_lighter as [Hmono Hbad].
  split.
  - apply (Hmono None "AL6061"%string "MQL"%string "CARBIDE"%string
             1 5 1 10 1 1 1); try reflexivity; Lra.lra.
  - apply (Hbad 0 10 "AL6061"%string "MQL"%string "CARBIDE"%string None). Lra.lra.
Defined.

End TierFacts.

(** ** The static words of a macro cycle line *)

Module StaticFacts.
Import Num Text Parser Shape NumFacts ParserFacts CaptureFacts.

Local Open Scope string_scope.

Lemma g66_token_static (st : params * list ijk * ijk) (m : string * string) :
  word_of "RZSIJKT" m ->
  exists st',
    g66_token st m = Ok st'
    /\ forall key, key_in key ["R"; "Z"; "S"; "T"] = true ->
         fst (fst st') !! key
         = if String.eqb (fst m) key then Some (Some (number (snd m)))
           else fst (fst st) !! key.
Proof.
  destruct st as [[sp dyn] temp]. destruct m as [key0 val_str].
  intros [(k & Hk & Hcls) Hnum]. cbn [fst snd] in *.
  subst key0. pose proof (is_number_nonempty _ Hnum) as Hne.
  destruct Hnum as [q Hq]. unfold g66_token.
  rewrite (number_ok _ _ Hq).
  apply class_cases in Hcls. cbn [In] in Hcls.
  destruct Hcls as [<-|[<-|[<-|[<-|[<-|[<-|[<-|[]]]]]]]].
  all: rewrite strip_letter by reflexivity.
  all: cbn [is_empty orb]; rewrite Hne, Hq; cbn [mbind result_bind].
  all: repeat match goal with
       | |- context [key_in ?k ?l] =>
         let b := eval vm_compute in (key_in k l) in
         change (key_in k l) with b
       end; cbn iota.
  all: try match goal with |- context [has_key ?d ?k] => destruct (has_key d k) end.
  all: eexists; (split; [reflexivity|]); cbn [fst]; intros key Hkey.
  all: cbn [key_in existsb] in Hkey; rewrite orb_false_r in Hkey.
  all: repeat (apply orb_true_iff in Hkey; destruct Hkey as [Hkey|Hkey]).
  all: apply String.eqb_eq in Hkey; subst key.
  all: first [reflexivity | cbn [String.eqb Ascii.eqb Bool.eqb]; cbn;
              first [apply lookup_insert_eq | now apply lookup_insert_ne]].
Qed.

Lemma g66_tokens_static (matches : list (string * string)) :
  Forall (word_of "RZSIJKT") matches ->
  forall st,
  exists st',
    g66_tokens st matches = Ok st'
    /\ forall key, key_in key ["R"; "Z"; "S"; "T"] = true ->
         fst (fst st') !! key
         = match last_word key matches with
           | Some v => Some (Some (number v))
           | None => fst (fst st) !! key
           end.
Proof.
  induction 1 as [|[k v] rest Hm _ IH]; intros st.
  - exists st. now split.
  - cbn [g66_tokens].
    destruct (g66_token_static st (k, v) Hm) as (st1 & -> & H1).
    cbn [mbind result_bind].
    destruct (IH st1) as (st' & -> & H').
    exists st'. split; [reflexivity|]. intros key Hkey.
    rewrite (H' key Hkey). cbn [last_word].
    destruct (last_word key rest); [reflexivity|].
    rewrite (H1 key Hkey). cbn [fst snd]. now destruct (String.eqb k key).
Qed.

(** X25. The static parameters of a G66 record are the last words of
    its line: for each of R, Z, S and T the record holds the value of the
    last such word of the line, and [None] when the line has none.  A
    missing R or Z is no error here, unlike on a G83 line. *)
Theorem parse_g66_line_static (self : parser) (line_index : nat) (line : string)
    (tool_id : string) (spindle_rpm spindle_line : Z) :
  exists td,
    _parse_g66_line self line_index line tool_id spindle_rpm spindle_line
    = Ok (set_tools_data self (tools_data self ++ [td])%list)
    /\ forall key, key_in key ["R"; "Z"; "S"; "T"] = true ->
         get_none (static_params td) key
         = match last_word key (findall_words "RZSIJKT" 0 line) with
           | Some v => Some (number v)
           | None => None
           end.
Proof.
  unfold _parse_g66_line, g66_extract.
  destruct (g66_tokens_static _ (findall_words_shape "RZSIJKT" line 0)
              (g66_static0, [], ∅)) as ([[sp dyn] temp] & -> & Hsp).
  cbn [mbind result_bind]. eexists. split; [reflexivity|].
  cbn [static_params]. intros key Hkey. unfold get_none.
  specialize (Hsp key Hkey). cbn [fst] in Hsp. rewrite Hsp.
  destruct (last_word key _); [reflexivity|].
  cbn [key_in existsb] in Hkey. rewrite orb_false_r in Hkey.
  repeat (apply orb_true_iff in Hkey; destruct Hkey as [Hkey|Hkey]);
    apply String.eqb_eq in Hkey; subst key; reflexivity.
Qed.

End StaticFacts.

(** ** An update that writes nothing *)

Module SilentFacts.
Import Num Text Parser Located NumFacts ParserFacts SpindleFacts.

Local Open Scope string_scope.

Lemma sub_digits_once_none (c : ascii) (repl s : string) :
  search_digits c s = None -> sub_digits_once c repl s = s.
Proof.
  induction s as [|c' r IH]; [reflexivity|].
  rewrite sub_digits_once_cons. cbn [search_digits].
  destruct (Ascii.eqb c' c && negb (is_empty (fst (span is_digit r))));
    [discriminate|].
  intros H. now rewrite (IH H).
Qed.

(** X26. [update_spindle_speed] can report success without touching
    the text.  When the record's spindle line has no S followed by a digit
    (as after [update_g66_line] has rewritten a G83 line that carried the
    S word, which the rewritten line drops), an update with a positive
    speed returns [True] and stores the speed in the record, and every
    line of the text stays as it was. *)
Theorem update_spindle_speed_silent
    (self : parser) (data_index : Z) (new_rpm : Q) (tool_data : tool_data)
    (old_line : string) :
  (0 <= data_index)%Z ->
  tools_data self !! Z.to_nat data_index = Some tool_data ->
  0 < new_rpm ->
  (0 <= rpm_line tool_data)%Z ->
  nc_lines self !! Z.to_nat (rpm_line tool_data) = Some old_line ->
  search_digits "S" old_line = None ->
  exists self',
    update_spindle_speed self data_index new_rpm = (true, self')
    /\ nc_lines self' = nc_lines self
    /\ rpm <$> tools_data self' !! Z.to_nat data_index
       = Some (int_of_float new_rpm).
Proof.
  intros Hidx Hlook Hrpm Hline Hold Hno.
  pose proof (lookup_lt_Some _ _ _ Hlook) as Hlt.
  pose proof (lookup_lt_Some _ _ _ Hold) as Hlt'.
  unfold update_spindle_speed.
  assert (H1 : ((data_index <? 0)%Z
                || (Z.of_nat (length (tools_data self)) <=? data_index)%Z) = false).
  { apply orb_false_iff. split; [apply Z.ltb_ge | apply Z.leb_gt]; lia. }
  assert (H2 : ((rpm_line tool_data <? 0)%Z
                || (Z.of_nat (length (nc_lines self)) <=? rpm_line tool_data)%Z)
               = false).
  { apply orb_false_iff. split; [apply Z.ltb_ge | apply Z.leb_gt]; lia. }
  apply Qleb_gt in Hrpm.
  rewrite H1, Hrpm, Hlook, H2, Hold, (sub_digits_once_none _ _ _ Hno).
  eexists. split; [reflexivity|]. cbn [nc_lines tools_data].
  split; [now apply list_insert_id|].
  rewrite list_lookup_insert_eq by exact Hlt. reflexivity.
Qed.

Lemma edited_record : rpm_line <$> tools_data edited !! 0%nat = Some 0%Z.
Proof. vm_compute. reflexivity. Qed.

Lemma edited_line :
  nc_lines edited !! Z.to_nat 0 = Some ("G83 Z-5 R2 Q1 F100" ++ String "010" "").
Proof. vm_compute. reflexivity. Qed.

Lemma update_spindle_speed_silent_witness :
  exists self',
    update_spindle_speed edited 0 1500 = (true, self')
    /\ nc_lines self' = nc_lines edited
    /\ rpm <$> tools_data self' !! Z.to_nat 0 = Some (int_of_float 1500).
Proof.
  destruct (tools_data edited !! 0%nat) as [tool_data|] eqn:Hlook.
  - assert (Hline : rpm_line tool_data = 0%Z).
    { pose proof edited_record as H. rewrite Hlook in H. now injection H. }
    pose proof (update_spindle_speed_silent edited 0 1500 tool_data
                  ("G83 Z-5 R2 Q1 F100" ++ String "010" "")) as H.
    rewrite Hline in H. apply H.
    + lia.
    + exact Hlook.
    + reflexivity.
    + lia.
    + exact edited_line.
    + reflexivity.
  - exfalso. pose proof edited_record as H. rewrite Hlook in H. discriminate H.
Defined.

End SilentFacts.

(** ** Default pecks *)

Module DefaultFacts.
Import Num Fmt Sim Text Defaults Parser Shape Diameters.
Import NumFacts SimFacts ParserFacts FixedFacts StageFacts.

Local Open Scope string_scope.







End DefaultFacts.
